(** * generate_app_icon.py: a shallow embedding and its verified properties

    The script draws a 1024x1024 icon with Pillow: a vertical gradient
    ([create_gradient]), two lens circles and four viewfinder brackets
    ([create_app_icon]), and saves it as a PNG under a top-level
    [try]/[except].

    Part I embeds the Python and Pillow semantics the script relies on,
    Part II embeds the script, Part III proves its properties. *)

From Stdlib Require Import ZArith Lia Bool.
From Corelib Require Import SpecFloat.
From stdpp Require Import prelude strings pretty gmap.

Local Open Scope Z_scope.

(* ===================================================================== *)
(** * Part I.a  Python exceptions and the error monad                     *)
(* ===================================================================== *)

Module Py.

(** The built-in exception classes the script can meet. *)
Inductive exc_class : Type :=
| BaseException
| KeyboardInterrupt
| SystemExit
| Exception
| ImportError
| ModuleNotFoundError
| OSError
| FileNotFoundError
| PermissionError
| ArithmeticError
| ZeroDivisionError
| OverflowError
| ValueError
| TypeError
| LookupError
| IndexError
| MemoryError.

(** The direct base class, as in Python's built-in hierarchy. *)
Definition base_of (c : exc_class) : option exc_class :=
  match c with
  | BaseException => None
  | KeyboardInterrupt | SystemExit | Exception => Some BaseException
  | ImportError | OSError | ArithmeticError | LookupError
  | ValueError | TypeError | MemoryError => Some Exception
  | IndexError => Some LookupError
  | ModuleNotFoundError => Some ImportError
  | FileNotFoundError | PermissionError => Some OSError
  | ZeroDivisionError | OverflowError => Some ArithmeticError
  end.

Definition exc_class_eqb (a b : exc_class) : bool :=
  match a, b with
  | BaseException, BaseException | KeyboardInterrupt, KeyboardInterrupt
  | SystemExit, SystemExit | Exception, Exception
  | ImportError, ImportError | ModuleNotFoundError, ModuleNotFoundError
  | OSError, OSError | FileNotFoundError, FileNotFoundError
  | PermissionError, PermissionError | ArithmeticError, ArithmeticError
  | ZeroDivisionError, ZeroDivisionError | OverflowError, OverflowError
  | ValueError, ValueError | TypeError, TypeError
  | LookupError, LookupError | IndexError, IndexError
  | MemoryError, MemoryError => true
  | _, _ => false
  end.

(** [issubclass c k]: the hierarchy is four levels deep, so four steps
    up the chain of bases reach [BaseException] from anywhere. *)
Fixpoint issubclass_fuel (fuel : nat) (c k : exc_class) : bool :=
  exc_class_eqb c k ||
  match fuel with
  | O => false
  | S fuel' =>
      match base_of c with
      | Some b => issubclass_fuel fuel' b k
      | None => false
      end
  end.

Definition issubclass : exc_class -> exc_class -> bool := issubclass_fuel 4.

(** The class name a traceback prints. *)
Definition exc_name (c : exc_class) : string :=
  match c with
  | BaseException => "BaseException"
  | KeyboardInterrupt => "KeyboardInterrupt"
  | SystemExit => "SystemExit"
  | Exception => "Exception"
  | ImportError => "ImportError"
  | ModuleNotFoundError => "ModuleNotFoundError"
  | OSError => "OSError"
  | FileNotFoundError => "FileNotFoundError"
  | PermissionError => "PermissionError"
  | ArithmeticError => "ArithmeticError"
  | ZeroDivisionError => "ZeroDivisionError"
  | OverflowError => "OverflowError"
  | ValueError => "ValueError"
  | TypeError => "TypeError"
  | LookupError => "LookupError"
  | IndexError => "IndexError"
  | MemoryError => "MemoryError"
  end.

(** The [code] attribute of a SystemExit: [None], an int, or another
    object, of which the interpreter uses the text. *)
Inductive exit_code : Type :=
| no_code
| int_code (n : Z)
| text_code (s : string).

(** An exception instance: its class, the text [str(e)] gives, and the
    [code] it carries (SystemExit only; [no_code] for the others). *)
Record exception : Type := mk_exception {
  exc_type : exc_class;
  exc_str : string;
  exc_code : exit_code
}.

(** An exception raised with a message. *)
Definition mk_exc (c : exc_class) (s : string) : exception :=
  mk_exception c s no_code.


Definition isinstance (e : exception) (k : exc_class) : bool :=
  issubclass (exc_type e) k.

(** Evaluation of an expression: a value, or a raised exception. *)
Inductive result (A : Type) : Type :=
| Return (a : A)
| Raise (e : exception).
Arguments Return {A} a.
Arguments Raise {A} e.

Definition bind {A B : Type} (m : result A) (f : A -> result B) : result B :=
  match m with
  | Return a => f a
  | Raise e => Raise e
  end.

(** [for x in xs: acc = body(acc, x)], stopping at the first exception. *)
Fixpoint for_each {A S : Type} (xs : list A) (body : S -> A -> result S)
    (acc : S) : result S :=
  match xs with
  | [] => Return acc
  | x :: xs' => bind (body acc x) (for_each xs' body)
  end.


(** [range(n)]: 0, 1, ..., n-1; empty when [n <= 0]. *)
Definition range (n : Z) : list Z := Z.of_nat <$> seq 0 (Z.to_nat n).

End Py.

Import Py.

Declare Scope py_scope.
Delimit Scope py_scope with py.
Notation "x <- m ;; k" := (Py.bind m (fun x => k))
  (at level 100, m at next level, right associativity) : py_scope.

(* ===================================================================== *)
(** * Part I.b  Python floats (IEEE 754 binary64, round to nearest even)  *)
(* ===================================================================== *)

Module Float64.

(** Every finite binary64 number is an integer multiple of 2^-1074, the
    smallest subnormal.  A finite float is represented by that integer
    (its value in units of 2^-1074); the sign is the sign of the
    integer. *)
Definition unit_exp : Z := 1074.
Definition one : Z := 2 ^ unit_exp.

(** Largest finite binary64: (2^53 - 1) * 2^971. *)
Definition max_finite : Z := (2 ^ 53 - 1) * 2 ^ (971 + unit_exp).

(** Round the rational [n / d] ([0 <= n], [0 < d]) to the nearest
    integer, ties to even. *)
Definition rne (n d : Z) : Z :=
  let q := n / d in
  match 2 * (n mod d) ?= d with
  | Lt => q
  | Gt => q + 1
  | Eq => if Z.even q then q else q + 1
  end.

(** Round the rational [n / d] (in units of 2^-1074) to 53 significant
    bits: the result is a multiple of [2^k], where [k] is the excess of
    the bit length of [n / d] over 53 (0 for subnormals). *)
Definition round53 (n d : Z) : Z :=
  let k := Z.max 0 (Z.log2 (n / d) - 52) in
  rne n (d * 2 ^ k) * 2 ^ k.

(** [round53 n (d * 2^s)] computed on the leading bits: the quotient
    by the power of two is a shift, and only the short quotient by [d]
    is a division.  Equal to [round53] ([round53_shift_eq]); it makes
    evaluation on concrete numbers cheap. *)
Definition rne_shift (n d j : Z) : Z :=
  let hi := Z.shiftr n j in
  let lo := Z.land n (Z.ones j) in
  let q := hi / d in
  match 2 * (Z.shiftl (hi mod d) j + lo) ?= Z.shiftl d j with
  | Lt => q
  | Gt => q + 1
  | Eq => if Z.even q then q else q + 1
  end.

Definition round53_shift (n d s : Z) : Z :=
  let k := Z.max 0 (Z.log2 (Z.shiftr n s / d) - 52) in
  Z.shiftl (rne_shift n d (s + k)) k.

(** For [k] in 0..254, two enclosures of the float product
    [255 * x] that [round53_shift] evaluates: with [x] the float nearest
    to [k / 255] the product does not fall below [k], and with [x] the
    float nearest to a rational just under [(k + 1) / 255] (short of it
    by [2^-41 / 255]) the product stays below [k + 1]. *)
Definition enclosure_ok (k : Z) : bool :=
  (k * one <=?
     round53_shift (255 * one * round53_shift (k * one) 255 0) 1 unit_exp)
  && (round53_shift
        (255 * one * round53_shift (((k + 1) * one - 2 ^ 1033) / 255) 1 0)
        1 unit_exp
      <? (k + 1) * one).

Inductive py_float : Type :=
| Finite (u : Z)
| Infinity (negative : bool)
| NaN.

(** [a / b] on Python ints: the correctly rounded quotient. *)
Definition truediv (a b : Z) : result py_float :=
  if b =? 0 then
    Raise (mk_exc ZeroDivisionError "division by zero")
  else
    let u := round53 (Z.abs a * one) (Z.abs b) in
    if max_finite <? u then
      Raise (mk_exc OverflowError "integer division result too large for a float")
    else Return (Finite (Z.sgn a * Z.sgn b * u)).

(** [float(n)], the conversion an int operand of a float product gets. *)
Definition of_int (n : Z) : result py_float :=
  let u := round53 (Z.abs n * one) 1 in
  if max_finite <? u then
    Raise (mk_exc OverflowError "int too large to convert to float")
  else Return (Finite (Z.sgn n * u)).

(** [x * y] on floats. *)
Definition mul (x y : py_float) : py_float :=
  match x, y with
  | Finite a, Finite b =>
      let u := round53 (Z.abs a * Z.abs b) one in
      if max_finite <? u then Infinity (Z.sgn a * Z.sgn b <? 0)
      else Finite (Z.sgn a * Z.sgn b * u)
  | Finite a, Infinity s | Infinity s, Finite a =>
      if a =? 0 then NaN else Infinity (xorb s (a <? 0))
  | Infinity s, Infinity t => Infinity (xorb s t)
  | NaN, _ | _, NaN => NaN
  end.

(** [int(x)]: truncation toward zero. *)
Definition to_int (x : py_float) : result Z :=
  match x with
  | Finite u => Return (Z.quot u one)
  | Infinity _ =>
      Raise (mk_exc OverflowError "cannot convert float infinity to integer")
  | NaN => Raise (mk_exc ValueError "cannot convert float NaN to integer")
  end.

(** The same three operations on Rocq's own IEEE 754 specification
    ([SpecFloat], binary64: precision 53, emax 1024), used to validate
    [round53] on samples. *)
Definition sf_of_Z (n : Z) : spec_float := binary_normalize 53 1024 n 0 false.

Definition sf_trunc (x : spec_float) : Z :=
  match x with
  | S754_finite s m e =>
      let v := if 0 <=? e then Z.pos m * 2 ^ e else Z.pos m / 2 ^ (- e) in
      if s then - v else v
  | _ => 0
  end.

Definition sf_scaled_trunc (c a b : Z) : Z :=
  sf_trunc (SFmul 53 1024 (sf_of_Z c) (SFdiv 53 1024 (sf_of_Z a) (sf_of_Z b))).

End Float64.


(* ===================================================================== *)
(** * Part I.c  Pillow: images, paste, drawing                            *)
(* ===================================================================== *)

Module PIL.

(** The two image modes the script creates. *)
Inductive mode : Type := L | RGB.

Definition mode_eqb (a b : mode) : bool :=
  match a, b with L, L | RGB, RGB => true | _, _ => false end.

(** A storage cell.  Pillow keeps one byte per pixel in mode L and four
    bytes in mode RGB (red, green, blue and a pad byte that no reader of
    an RGB image looks at).  One four-byte cell serves both; mode L uses
    the first byte and keeps the others 0. *)
Definition cell : Type := (Z * Z * Z * Z)%type.

Record Image : Type := mk_image {
  im_mode : mode;
  im_width : Z;
  im_height : Z;
  im_data : list cell            (* row-major, as putdata/getdata see it *)
}.

(** A colour argument: an int, an (r, g, b) tuple or an (r, g, b, a)
    tuple. *)
Inductive color : Type :=
| Gray (v : Z)
| RGBc (r g b : Z)
| RGBAc (r g b a : Z).

(** An 8-bit channel value. *)
Definition byte (v : Z) : Prop := 0 <= v <= 255.

(** [CLIP8]: saturate to a byte. *)
Definition clip8 (v : Z) : Z :=
  if v <? 0 then 0 else if 255 <? v then 255 else v.

(** [getink]: the bytes a colour argument stands for in an image of the
    given mode.  In mode RGB the alpha of a four-tuple lands in the pad
    byte; a three-tuple gets 255 there; an int is read as packed bytes.
    Mode L takes an int only.

    Modelled range: components that fit a C int (a C long long for an
    int colour).  Pillow raises OverflowError beyond it; here every
    integer is clipped, so statements about colours are to be read for
    components in that range. *)
Definition getink (m : mode) (c : color) : result cell :=
  match m, c with
  | L, Gray v => Return (clip8 v, 0, 0, 0)
  | L, _ =>
      Raise (mk_exc TypeError "color must be int or single-element tuple")
  | RGB, Gray v =>
      Return (Z.land v 255, Z.land (Z.shiftr v 8) 255,
              Z.land (Z.shiftr v 16) 255, Z.land (Z.shiftr v 24) 255)
  | RGB, RGBc r g b => Return (clip8 r, clip8 g, clip8 b, 255)
  | RGB, RGBAc r g b a => Return (clip8 r, clip8 g, clip8 b, clip8 a)
  end.

(** Two images of the same mode and dimensions. *)
Definition same_shape (a b : Image) : Prop :=
  im_mode a = im_mode b /\ im_width a = im_width b /\
  im_height a = im_height b /\ length (im_data a) = length (im_data b).

(** What [getpixel]/[getdata] and the encoders read from a cell. *)
Definition bands (m : mode) (c : cell) : list Z :=
  match m, c with
  | L, (v, _, _, _) => [v]
  | RGB, (r, g, b, _) => [r; g; b]
  end.

(** [Image.new(mode, (w, h), color)]; the colour defaults to 0.

    Modelled range: sizes Pillow can allocate.  The size check below is
    Pillow's first step and is modelled for every integer; past it,
    Pillow raises OverflowError for a dimension of 2^31 or more and
    MemoryError when the pixel store cannot be allocated, neither of
    which is modelled: here memory is unbounded. *)
Definition new (m : mode) (size : Z * Z) (c : option color) : result Image :=
  let '(w, h) := size in
  if (w <? 0) || (h <? 0) then
    Raise (mk_exc ValueError "Width and height must be >= 0")
  else
    (ink <- getink m (default (Gray 0) c) ;;
     Return (mk_image m w h (replicate (Z.to_nat (w * h)) ink)))%py.

(** [im.putdata(seq)] on a mode L image: the leading cells take the
    clipped values of the sequence. *)
Definition putdata (im : Image) (seq : list Z) : result Image :=
  if (length (im_data im) <? length seq)%nat then
    Raise (mk_exc TypeError "too many data entries")
  else
    Return (mk_image (im_mode im) (im_width im) (im_height im)
              (((fun v => (clip8 v, 0, 0, 0)) <$> seq)
               ++ drop (length seq) (im_data im))).

(** [DIV255] and [BLEND] of Pillow's paste. *)
Definition DIV255 (a : Z) : Z :=
  let tmp := a + 128 in Z.shiftr (Z.shiftr tmp 8 + tmp) 8.

Definition BLEND (mask in1 in2 : Z) : Z :=
  DIV255 (in1 * (255 - mask) + in2 * mask).

Definition blend_cell (mask : Z) (out inp : cell) : cell :=
  let '(o0, o1, o2, o3) := out in
  let '(i0, i1, i2, i3) := inp in
  (BLEND mask o0 i0, BLEND mask o1 i1, BLEND mask o2 i2, BLEND mask o3 i3).

(** The cell at column [x], row [y]. *)
Definition cell_at (im : Image) (x y : Z) : option cell :=
  if (0 <=? x) && (x <? im_width im) && (0 <=? y) && (y <? im_height im)
  then im_data im !! Z.to_nat (y * im_width im + x)
  else None.

(** [im.getpixel((x, y))]. *)
Definition getpixel (im : Image) (x y : Z) : result (list Z) :=
  match cell_at im x y with
  | Some c => Return (bands (im_mode im) c)
  | None => Raise (mk_exc IndexError "image index out of range")
  end.

(** [list(im.getdata())]. *)
Definition getdata (im : Image) : list (list Z) :=
  bands (im_mode im) <$> im_data im.

(** [im.convert(mode)] between the two modes (ITU-R 601-2 luma). *)
Definition convert (im : Image) (m : mode) : Image :=
  match im_mode im, m with
  | L, RGB =>
      mk_image RGB (im_width im) (im_height im)
        ((fun c : cell => let '(v, _, _, _) := c in (v, v, v, 255)) <$> im_data im)
  | RGB, L =>
      mk_image L (im_width im) (im_height im)
        ((fun c : cell => let '(r, g, b, _) := c in
            (Z.shiftr (r * 19595 + g * 38470 + b * 7471 + 32768) 16, 0, 0, 0))
           <$> im_data im)
  | _, _ => im
  end.

(** Overwrite-or-keep every cell by its coordinates. *)
Definition map_cells (f : Z -> Z -> cell -> cell) (im : Image) : Image :=
  mk_image (im_mode im) (im_width im) (im_height im)
    (imap (fun i c => f (Z.of_nat i mod im_width im) (Z.of_nat i / im_width im) c)
          (im_data im)).

(** [base.paste(src, (0, 0), mask)]: the source is brought to the mode of
    the destination, the mask must be mode L and as large as the source,
    the box is clipped to the destination, and every cell of the box is
    blended by its mask byte. *)
Definition paste (base src : Image) (mask : Image) : result Image :=
  let src := if mode_eqb (im_mode src) (im_mode base) then src
             else convert src (im_mode base) in
  if negb (mode_eqb (im_mode mask) L) then
    Raise (mk_exc ValueError "bad transparency mask")
  else if negb ((im_width mask =? im_width src) && (im_height mask =? im_height src)) then
    Raise (mk_exc ValueError "images do not match")
  else
    Return (map_cells (fun x y out =>
              match cell_at src x y, cell_at mask x y with
              | Some inp, Some (m, _, _, _) => blend_cell m out inp
              | _, _ => out
              end) base).

(** ** ImageDraw *)

(** What the C rasterisers and the PNG encoder do is Pillow's business;
    the script's properties hold for any of them. *)
Class Backend : Type := {
  (** the pixels [ImagingDrawEllipse] visits for a bounding box, filled
      or as an outline of the given width *)
  ellipse_raster : Z * Z * Z * Z -> bool -> Z -> Z -> Z -> bool;
  (** the pixels visited for a line that [line_raster] below does not
      work out itself: an oblique segment, or a width below 1 *)
  oblique_raster : Z * Z -> Z * Z -> Z -> Z -> Z -> bool;
  (** the ink a draw object starts with, used when a call names none *)
  default_ink : mode -> cell;
  (** the PNG file for an image of the given size and band values *)
  png_encode : Z * Z -> list (list Z) -> list Z
}.

(** Set every visited cell to the ink (no blending: [ImageDraw.Draw(img)]
    on an image of the same mode draws with [blend = 0]). *)
Definition paint (covers : Z -> Z -> bool) (ink : cell) (im : Image) : Image :=
  map_cells (fun x y c => if covers x y then ink else c) im.

Definition getink_opt (m : mode) (c : option color) : result (option cell) :=
  match c with
  | None => Return None
  | Some c => (i <- getink m c ;; Return (Some i))%py
  end.

(** [ImageDraw._getink(ink, fill)]: the inks of the outline and of the
    fill; with neither given, the outline takes the default ink. *)
Definition _getink `{Backend} (m : mode) (ink fill : option color)
    : result (option cell * option cell) :=
  match ink, fill with
  | None, None => Return (Some (default_ink m), None)
  | _, _ =>
      (i <- getink_opt m ink ;;
       f <- getink_opt m fill ;;
       Return (i, f))%py
  end.

Definition cell_eqb (a b : cell) : bool :=
  let '(a0, a1, a2, a3) := a in
  let '(b0, b1, b2, b3) := b in
  (a0 =? b0) && (a1 =? b1) && (a2 =? b2) && (a3 =? b3).

(** [draw.ellipse(xy, fill=..., outline=..., width=...)]: the filled
    shape first, then the outline unless it has the fill's ink or a zero
    width. *)
Definition ellipse `{Backend} (im : Image) (xy : Z * Z * Z * Z)
    (fill outline : option color) (width : Z) : result Image :=
  (inks <- _getink (im_mode im) outline fill ;;
   let '(ink, fill_ink) := inks in
   let '(x0, y0, x1, y1) := xy in
   if x1 <? x0 then
     Raise (mk_exc ValueError "x1 must be greater than or equal to x0")
   else if y1 <? y0 then
     Raise (mk_exc ValueError "y1 must be greater than or equal to y0")
   else
     let im1 := match fill_ink with
                | Some f => paint (ellipse_raster xy true 1) f im
                | None => im
                end in
     let im2 := match ink with
                | Some i =>
                    if negb (match fill_ink with
                             | Some f => cell_eqb i f
                             | None => false
                             end) && negb (width =? 0)
                    then paint (ellipse_raster xy false width) i im1
                    else im1
                | None => im1
                end in
     Return im2)%py.

(** [ImagingDrawWideLine] on a horizontal or vertical segment: the
    rectangle with corners offset across the segment by
    [ROUND_DOWN((width-1)/2 * ratio)] and [ROUND_UP((width-1)/2 * ratio)],
    where [ratio] is +1 or -1 by the direction of the segment; the
    polygon filler covers the rectangle with its edges.  With width 1 the
    rectangle is the run of pixels between the end points.  What a width
    below 1 draws is the backend's business, as are oblique segments. *)
Definition between (a b v : Z) : bool :=
  (Z.min a b <=? v) && (v <=? Z.max a b).

Definition line_raster `{Backend} (p q : Z * Z) (width : Z) (x y : Z) : bool :=
  let '(x0, y0) := p in
  let '(x1, y1) := q in
  let dx := x1 - x0 in
  let dy := y1 - y0 in
  if width <? 1 then oblique_raster p q width x y
  else if (dx =? 0) && (dy =? 0) then (x =? x0) && (y =? y0)
  else if dy =? 0 then
    let dymin := Z.sgn dx * ((width - 1) / 2) in
    let dymax := Z.sgn dx * (width / 2) in
    between x0 x1 x && between (y0 - dymin) (y0 + dymax) y
  else if dx =? 0 then
    let dxmin := Z.sgn dy * ((width - 1) / 2) in
    let dxmax := Z.sgn dy * (width / 2) in
    between (x0 - dxmin) (x0 + dxmax) x && between y0 y1 y
  else oblique_raster p q width x y.

(** [draw.line([p, q], fill=..., width=...)]. *)
Definition line `{Backend} (im : Image) (p q : Z * Z)
    (fill : option color) (width : Z) : result Image :=
  (inks <- _getink (im_mode im) fill None ;;
   match fst inks with
   | Some i => Return (paint (line_raster p q width) i im)
   | None => Return im
   end)%py.

End PIL.

(* ===================================================================== *)
(** * Part I.d  The process: output streams, files, the monad of effects  *)
(* ===================================================================== *)

Module Proc.

(** What a run of the script can see and change. *)
Record world : Type := mk_world {
  pil_installed : bool;                    (* is the package importable *)
  open_error : string -> option exception; (* what open(path, 'w+b') raises *)
  files : gmap string (list Z);            (* file contents by path *)
  stdout : list string;                    (* lines printed so far *)
  stderr : list string;
  clock : Z;                               (* wall-clock time *)
  entropy : list Z                         (* the random source *)
}.

Definition M (A : Type) : Type := world -> result A * world.

Definition ret {A : Type} (a : A) : M A := fun w => (Return a, w).

Definition bind {A B : Type} (m : M A) (f : A -> M B) : M B :=
  fun w =>
    match m w with
    | (Return a, w') => f a w'
    | (Raise e, w') => (Raise e, w')
    end.

(** A pure evaluation inside the process. *)
Definition lift {A : Type} (r : result A) : M A := fun w => (r, w).

(** The world with more lines printed, more lines on the error stream,
    or a file written. *)
Definition with_stdout (lines : list string) (w : world) : world :=
  mk_world (pil_installed w) (open_error w) (files w)
           (stdout w ++ lines) (stderr w) (clock w) (entropy w).

Definition with_stderr (lines : list string) (w : world) : world :=
  mk_world (pil_installed w) (open_error w) (files w)
           (stdout w) (stderr w ++ lines) (clock w) (entropy w).

Definition with_file (path : string) (content : list Z) (w : world) : world :=
  mk_world (pil_installed w) (open_error w) (<[path := content]> (files w))
           (stdout w) (stderr w) (clock w) (entropy w).

(** A world with nothing printed and no files yet. *)
Definition fresh_world (pil : bool) (err : string -> option exception)
    (time : Z) (seed : list Z) : world :=
  mk_world pil err ∅ [] [] time seed.

(** [print(s)]. *)
Definition print (s : string) : M unit :=
  fun w => (Return tt, with_stdout [s] w).

(** The text of a traceback: its header and the line naming the
    exception. *)
Definition traceback_text (e : exception) : string :=
  "Traceback (most recent call last): " +:+ exc_name (exc_type e)
    +:+ ": " +:+ exc_str e.

(** [traceback.print_exc()] writes to the error stream. *)
Definition print_exc (e : exception) : M unit :=
  fun w => (Return tt, with_stderr [traceback_text e] w).

Definition no_module_PIL : exception :=
  mk_exc ModuleNotFoundError "No module named 'PIL'".

(** [from PIL import ...]. *)
Definition import_PIL : M unit :=
  fun w => if pil_installed w then (Return tt, w)
           else (Raise no_module_PIL, w).

(** Two exceptions a run can meet from outside: the directory of the
    output file is missing; the user interrupts the run. *)
Definition no_such_directory : exception :=
  mk_exc FileNotFoundError "[Errno 2] No such file or directory".

Definition interrupted : exception := mk_exc KeyboardInterrupt "interrupted".

(** [img.save(path, 'PNG', ...)]: open the file, write the encoding. *)
Definition save `{PIL.Backend} (im : PIL.Image) (path : string) : M unit :=
  fun w =>
    match open_error w path with
    | Some e => (Raise e, w)
    | None =>
        (Return tt,
         with_file path
           (PIL.png_encode (PIL.im_width im, PIL.im_height im) (PIL.getdata im))
           w)
    end.

(** [try: body / except C1 as e: h1 / except C2 as e: h2 ...]: the first
    clause whose class the exception is an instance of handles it; with
    none, the exception goes on. *)
Fixpoint find_handler {A : Type} (e : exception)
    (handlers : list (exc_class * (exception -> M A))) : option (M A) :=
  match handlers with
  | [] => None
  | (k, h) :: rest =>
      if isinstance e k then Some (h e) else find_handler e rest
  end.

Definition try_except {A : Type} (body : M A)
    (handlers : list (exc_class * (exception -> M A))) : M A :=
  fun w =>
    match body w with
    | (Return a, w') => (Return a, w')
    | (Raise e, w') =>
        match find_handler e handlers with
        | Some h => h w'
        | None => (Raise e, w')
        end
    end.

(** How the interpreter ends: normally; on a SystemExit nothing caught,
    with the status its code gives; or on another exception nothing
    caught (it prints the traceback and the process fails). *)
Inductive outcome : Type :=
| ExitNormally
| Exited (status : Z)
| Unhandled (e : exception).

(** What the interpreter does with a SystemExit that reaches the top: no
    traceback; no code is status 0, an int is the status handed to the
    system, and anything else is written to the error stream with
    status 1. *)
Definition handle_system_exit (e : exception) (w : world) : outcome * world :=
  match exc_code e with
  | no_code => (Exited 0, w)
  | int_code n => (Exited n, w)
  | text_code s => (Exited 1, with_stderr [s] w)
  end.

Definition run_module (m : M unit) (w : world) : outcome * world :=
  match m w with
  | (Return _, w') => (ExitNormally, w')
  | (Raise e, w') =>
      if isinstance e SystemExit then handle_system_exit e w'
      else (Unhandled e, with_stderr [traceback_text e] w')
  end.

End Proc.

Declare Scope io_scope.
Delimit Scope io_scope with io.
Notation "x <- m ;; k" := (Proc.bind m (fun x => k))
  (at level 100, m at next level, right associativity) : io_scope.
Notation "m ;;; k" := (Proc.bind m (fun _ => k))
  (at level 100, right associativity) : io_scope.

(* ===================================================================== *)
(** * Part II  The script                                                 *)
(* ===================================================================== *)

Module generate_app_icon.
Import PIL Proc.

Section Script.
Context `{B : Backend}.

(** [int(255 * (y / height))] *)
Definition mask_value (y height : Z) : result Z :=
  (q <- Float64.truediv y height ;;
   c <- Float64.of_int 255 ;;
   Float64.to_int (Float64.mul c q))%py.

(** The value of [mask_value] on the rows of an image, [0 <= y < height]
    ([mask_value_row]): the float product, then the truncation. *)
Definition row_mask (y height : Z) : Z :=
  Float64.round53
    (255 * Float64.one * Float64.round53 (y * Float64.one) height)
    Float64.one
  / Float64.one.

(** [row_mask] through [round53_shift], for evaluation. *)
Definition row_mask_shift (y height : Z) : Z :=
  Z.shiftr
    (Float64.round53_shift
       (255 * Float64.one * Float64.round53_shift (y * Float64.one) height 0)
       1 Float64.unit_exp)
    Float64.unit_exp.

(** [def create_gradient(width, height, color1, color2)] *)
Definition create_gradient (width height : Z) (color1 color2 : color)
    : result Image :=
  (base <- new RGB (width, height) (Some color1) ;;
   top <- new RGB (width, height) (Some color2) ;;
   mask <- new L (width, height) None ;;
   mask_data <-
     for_each (range height)
       (fun mask_data y =>
          v <- mask_value y height ;;
          Return (mask_data ++ replicate (Z.to_nat width) v))
       [] ;;
   mask <- putdata mask mask_data ;;
   paste base top mask)%py.

(** The drawing calls of [create_app_icon], as data. *)
Inductive draw_call : Type :=
| Ellipse (xy : Z * Z * Z * Z) (fill outline : option color) (width : Z)
| Line (p q : Z * Z) (fill : option color) (width : Z).

Definition apply_call (im : Image) (c : draw_call) : result Image :=
  match c with
  | Ellipse xy fill outline width => ellipse im xy fill outline width
  | Line p q fill width => line im p q fill width
  end.

Definition size : Z := 1024.
Definition color1 : color := RGBc 0 122 255.
Definition color2 : color := RGBc 88 86 214.
Definition center : Z := size / 2.
Definition circle_radius : Z := size / 3.
Definition inner_radius : Z := circle_radius / 2.
Definition corner_size : Z := 60.
Definition corner_width : Z := 15.
Definition corner_offset : Z := circle_radius + 80.
Definition white : option color := Some (RGBc 255 255 255).
Definition output_path : string :=
  "FaceRecognitionClient/Assets.xcassets/AppIcon.appiconset/AppIcon.png".

(** Outer circle (camera lens). *)
Definition outer_circle : draw_call :=
  Ellipse (center - circle_radius, center - circle_radius,
           center + circle_radius, center + circle_radius)
    (Some (RGBAc 255 255 255 230)) (Some (RGBc 240 240 240)) 1.

(** Inner circle (camera aperture). *)
Definition inner_circle : draw_call :=
  Ellipse (center - inner_radius, center - inner_radius,
           center + inner_radius, center + inner_radius)
    None (Some (RGBc 0 122 255)) 20.

Definition lens_circles : list draw_call := [outer_circle; inner_circle].

Definition top_left_corner : list draw_call :=
  [ Line (center - corner_offset, center - corner_offset)
         (center - corner_offset + corner_size, center - corner_offset)
         white corner_width;
    Line (center - corner_offset, center - corner_offset)
         (center - corner_offset, center - corner_offset + corner_size)
         white corner_width ].

Definition top_right_corner : list draw_call :=
  [ Line (center + corner_offset, center - corner_offset)
         (center + corner_offset - corner_size, center - corner_offset)
         white corner_width;
    Line (center + corner_offset, center - corner_offset)
         (center + corner_offset, center - corner_offset + corner_size)
         white corner_width ].

Definition bottom_left_corner : list draw_call :=
  [ Line (center - corner_offset, center + corner_offset)
         (center - corner_offset + corner_size, center + corner_offset)
         white corner_width;
    Line (center - corner_offset, center + corner_offset)
         (center - corner_offset, center + corner_offset - corner_size)
         white corner_width ].

Definition bottom_right_corner : list draw_call :=
  [ Line (center + corner_offset, center + corner_offset)
         (center + corner_offset - corner_size, center + corner_offset)
         white corner_width;
    Line (center + corner_offset, center + corner_offset)
         (center + corner_offset, center + corner_offset - corner_size)
         white corner_width ].

Definition viewfinder_corners : list draw_call :=
  top_left_corner ++ top_right_corner
    ++ bottom_left_corner ++ bottom_right_corner.

Definition newline : string := String (Ascii.ascii_of_nat 10) EmptyString.

(** [def create_app_icon()] *)
Definition create_app_icon : M unit :=
  (print "Creating gradient background..." ;;;
   img <- lift (create_gradient size size color1 color2) ;;
   print "Drawing camera lens circle..." ;;;
   img <- lift (for_each lens_circles apply_call img) ;;
   print "Adding camera viewfinder corners..." ;;;
   img <- lift (for_each viewfinder_corners apply_call img) ;;
   print ("Saving icon to " +:+ output_path +:+ "...") ;;;
   save img output_path ;;;
   print "✅ App icon created successfully!" ;;;
   print ("   Size: " +:+ pretty size +:+ "x" +:+ pretty size) ;;;
   print ("   Location: " +:+ output_path) ;;;
   print (newline +:+ "Next steps:") ;;;
   print "1. Open Xcode and verify the icon appears" ;;;
   print "2. Build the app to see it on simulator/device" ;;;
   print "3. Optionally upload to https://appicon.co to generate all sizes")%io.

(** The guarded block under [if __name__ == "__main__":], for any body
    in the place of the call. *)
Definition main_block (body : M unit) : M unit :=
  try_except body
    [ (ImportError, fun e =>
         (print "❌ Error: PIL (Pillow) not installed" ;;;
          print (newline +:+ "To install, run:") ;;;
          print "  pip3 install Pillow" ;;;
          print (newline +:+ "Or if using conda:") ;;;
          print "  conda install pillow")%io);
      (Exception, fun e =>
         (print ("❌ Error creating icon: " +:+ exc_str e) ;;;
          print_exc e)%io) ].

(** The module run as a program: the imports of lines 7 and 8, the two
    definitions, the guarded block. *)
Definition script : M unit :=
  (import_PIL ;;; main_block create_app_icon)%io.

Definition run_script : world -> outcome * world := run_module script.

(** ** Views of the script used to state its properties *)

(** The canvas [create_app_icon] hands to [save]: its three drawing
    stages without the prints between them. *)
Definition render : result Image :=
  (img <- create_gradient size size color1 color2 ;;
   img <- for_each lens_circles apply_call img ;;
   for_each viewfinder_corners apply_call img)%py.

(** The ten drawing calls, in order. *)
Definition script_calls : list draw_call := lens_circles ++ viewfinder_corners.

(** The bounding box and the outline of the outer circle. *)
Definition outer_box : Z * Z * Z * Z :=
  (center - circle_radius, center - circle_radius,
   center + circle_radius, center + circle_radius).

Definition outer_outline : option color := Some (RGBc 240 240 240).

(** The lines [create_app_icon] prints before the save, and after it. *)
Definition lines_before_save : list string :=
  [ "Creating gradient background...";
    "Drawing camera lens circle...";
    "Adding camera viewfinder corners...";
    "Saving icon to " +:+ output_path +:+ "..." ].

Definition lines_after_save : list string :=
  [ "✅ App icon created successfully!";
    "   Size: " +:+ pretty size +:+ "x" +:+ pretty size;
    "   Location: " +:+ output_path;
    newline +:+ "Next steps:";
    "1. Open Xcode and verify the icon appears";
    "2. Build the app to see it on simulator/device";
    "3. Optionally upload to https://appicon.co to generate all sizes" ].

(** The canvas after each of a list of calls. *)
Fixpoint scan_calls (im : Image) (calls : list draw_call)
    : result (list Image) :=
  match calls with
  | [] => Return []
  | c :: rest =>
      (im' <- apply_call im c ;;
       later <- scan_calls im' rest ;;
       Return (im' :: later))%py
  end.

(** The canvas as [create_gradient] returns it, then after each of the
    ten drawing calls, in order. *)
Definition canvas_history : result (list Image) :=
  (img <- create_gradient size size color1 color2 ;;
   later <- scan_calls img (lens_circles ++ viewfinder_corners) ;;
   Return (img :: later))%py.

(** The cells a call overwrites on an image of mode [m]. *)
Definition painted_by (m : mode) (c : draw_call) (x y : Z) : bool :=
  match c with
  | Ellipse xy fill outline width =>
      let '(x0, y0, x1, y1) := xy in
      match _getink m outline fill with
      | Return (ink, fill_ink) =>
          negb ((x1 <? x0) || (y1 <? y0)) &&
          ((match fill_ink with
            | Some _ => ellipse_raster xy true 1 x y
            | None => false
            end)
           || (match ink with
               | Some i =>
                   negb (match fill_ink with
                         | Some f => cell_eqb i f
                         | None => false
                         end)
                   && negb (width =? 0) && ellipse_raster xy false width x y
               | None => false
               end))
      | Raise _ => false
      end
  | Line p q fill width =>
      match _getink m fill None with
      | Return (Some _, _) => line_raster p q width x y
      | _ => false
      end
  end.

(** The pixels of the RGB canvas a bracket (a list of calls) paints. *)
Definition corner_pixels (corner : list draw_call) (x y : Z) : bool :=
  existsb (fun c => painted_by RGB c x y) corner.

End Script.

(** Reflection of a pixel column or row across the centre line of the
    canvas: the raster has columns [0 .. size - 1], so column [x] goes to
    [size - 1 - x]. *)
Definition mirror (x : Z) : Z := size - 1 - x.

(** Reflection across the line through the pixel with index [center],
    the point the script measures its offsets from. *)
Definition mirror_at_center (x : Z) : Z := 2 * center - x.

(** [icon_shaped im]: the dimensions and mode of the icon canvas. *)
Definition icon_shaped (im : Image) : Prop :=
  im_mode im = RGB /\ im_width im = size /\ im_height im = size /\
  length (im_data im) = Z.to_nat (size * size).

End generate_app_icon.

(* ===================================================================== *)
(** * Part II.b  The reference formula of the specification               *)
(* ===================================================================== *)

Module Reference.

(** The interpolation the specification words give for one channel of
    row [y]: [start + (y / height) * (end - start)], the exact rational
    [(start * height + y * (end - start)) / height]. *)
Definition exact_num (s e y height : Z) : Z := s * height + y * (e - s).

(** [r] is a nearest integer to [num / den], whatever the rule for
    ties. *)
Definition is_nearest (r num den : Z) : bool :=
  2 * Z.abs (r * den - num) <=? den.

(** The formula rounded to the nearest integer (halves up) and kept in
    [0, 255]. *)
Definition reference_channel (s e y height : Z) : Z :=
  PIL.clip8 ((2 * exact_num s e y height + height) / (2 * height)).

(** Two pixels agree within [tol] on every channel. *)
Fixpoint close_to (tol : Z) (p q : list Z) : bool :=
  match p, q with
  | [], [] => true
  | a :: p', b :: q' => (Z.abs (a - b) <=? tol) && close_to tol p' q'
  | _, _ => false
  end.

End Reference.

(* ===================================================================== *)
(** * Part II.c  A backend to run the model on                            *)
(* ===================================================================== *)

(** The theorems hold for every [Backend]; this one serves to evaluate the
    script's model on concrete inputs.  Its ellipse is the set of pixels
    inside the inscribed ellipse of the box (an outline is the filled
    ellipse less the one [width] pixels further in), it draws nothing for
    oblique lines, and its encoding lists the size and the band values. *)
Definition inside_ellipse (xy : Z * Z * Z * Z) (x y : Z) : bool :=
  let '(x0, y0, x1, y1) := xy in
  let a := x1 - x0 in
  let b := y1 - y0 in
  (0 <=? a) && (0 <=? b) &&
  ((2 * x - x0 - x1) ^ 2 * b ^ 2 + (2 * y - y0 - y1) ^ 2 * a ^ 2 <=? a ^ 2 * b ^ 2).

Definition plain_backend : PIL.Backend := {|
  PIL.ellipse_raster := fun xy fill width x y =>
    let '(x0, y0, x1, y1) := xy in
    inside_ellipse xy x y &&
    (fill || negb (inside_ellipse (x0 + width, y0 + width, x1 - width, y1 - width) x y));
  PIL.oblique_raster := fun _ _ _ _ _ => false;
  PIL.default_ink := fun _ => (255, 255, 255, 255);
  PIL.png_encode := fun size px => fst size :: snd size :: concat px
|}.

(** A canvas of the icon's size in one colour, to try single drawing calls
    on. *)
Definition blue_canvas : PIL.Image :=
  PIL.mk_image PIL.RGB 1024 1024
    (replicate (Z.to_nat (1024 * 1024)) (0, 122, 255, 255)).

Ltac eval_sgn :=
  repeat match goal with
         | |- context [Z.sgn ?a] =>
             let v := eval vm_compute in (Z.sgn a) in
             change (Z.sgn a) with v
         end;
  repeat match goal with
         | |- context [Z.min ?a ?b] =>
             let v := eval vm_compute in (Z.min a b) in
             change (Z.min a b) with v
         | |- context [Z.max ?a ?b] =>
             let v := eval vm_compute in (Z.max a b) in
             change (Z.max a b) with v
         end.

(* ===================================================================== *)
(** * Part III  Properties                                                *)
(* ===================================================================== *)

Import Py Float64 PIL Proc generate_app_icon Reference.

(** Further views of the script, for the properties of Part IV. *)

(** The bounding box of the inner circle. *)
Definition inner_box : Z * Z * Z * Z :=
  (center - inner_radius, center - inner_radius,
   center + inner_radius, center + inner_radius).

(** [is_white_line c]: a line call with the white fill. *)
Definition is_white_line (c : draw_call) : Prop :=
  exists p q w, c = Line p q white w.

(** The colour of the gradient of the script in row [y]. *)
Definition gradient_row (y : Z) : list Z :=
  let m := 255 * y / size in
  [BLEND m 0 88; BLEND m 122 86; BLEND m 255 214].

(** ** Rounding to nearest, ties to even *)

Lemma rne_spec n d :
  0 < d ->
  (2 * rne n d - 1) * d <= 2 * n <= (2 * rne n d + 1) * d /\
  (2 * n = (2 * rne n d - 1) * d -> Z.even (rne n d) = true) /\
  (2 * n = (2 * rne n d + 1) * d -> Z.even (rne n d) = true).
Proof.
  intros Hd. unfold rne.
  pose proof (Z.div_mod n d ltac:(lia)) as Hn.
  pose proof (Z.mod_pos_bound n d Hd) as Hm.
  set (q := n / d) in *. set (m := n mod d) in *.
  destruct (Z.compare_spec (2 * m) d) as [He|Hl|Hg].
  - destruct (Z.even q) eqn:Hq.
    + split; [nia|]. split; [intros; nia | intros; exact Hq].
    + assert (Z.even (q + 1) = true) as Hq1.
      { rewrite Z.even_add, Hq. reflexivity. }
      split; [nia|]. split; [intros; exact Hq1 | intros; nia].
  - split; [nia|]. split; intros; nia.
  - split; [nia|]. split; intros; nia.
Qed.

Lemma rne_mono n1 d1 n2 d2 :
  0 < d1 -> 0 < d2 -> n1 * d2 <= n2 * d1 -> rne n1 d1 <= rne n2 d2.
Proof.
  intros H1 H2 Hle.
  destruct (rne_spec n1 d1 H1) as ([L1 U1] & E1 & _).
  destruct (rne_spec n2 d2 H2) as ([L2 U2] & _ & E2).
  set (r1 := rne n1 d1) in *. set (r2 := rne n2 d2) in *.
  destruct (Z_le_gt_dec r1 r2) as [|Hgt]; [assumption|exfalso].
  assert (2 * n1 * d2 <= 2 * n2 * d1) as Hle2 by lia.
  assert ((2 * r1 - 1) * d1 * d2 <= 2 * n1 * d2) as A by nia.
  assert (2 * n2 * d1 <= (2 * r2 + 1) * d2 * d1) as C by nia.
  assert ((2 * r2 + 1) * (d1 * d2) <= (2 * r1 - 1) * (d1 * d2)) as D.
  { apply Z.mul_le_mono_nonneg_r; nia. }
  assert (r1 = r2 + 1) as Hr by nia.
  assert (2 * n1 = (2 * r1 - 1) * d1) as T1 by nia.
  assert (2 * n2 = (2 * r2 + 1) * d2) as T2 by nia.
  specialize (E1 T1). specialize (E2 T2).
  rewrite Hr, Z.even_add, E2 in E1. discriminate.
Qed.

Lemma rne_exact c d : 0 < d -> rne (c * d) d = c.
Proof.
  intros Hd. unfold rne.
  rewrite Z.div_mul, Z.mod_mul by lia.
  destruct (Z.compare_spec (2 * 0) d); lia.
Qed.

Lemma rne_ge c n d : 0 < d -> c * d <= n -> c <= rne n d.
Proof.
  intros Hd H. rewrite <- (rne_exact c d Hd). apply rne_mono; nia.
Qed.

Lemma rne_le c n d : 0 < d -> n <= c * d -> rne n d <= c.
Proof.
  intros Hd H. rewrite <- (rne_exact c d Hd). apply rne_mono; nia.
Qed.

Lemma div_cross_mono n1 d1 n2 d2 :
  0 < d1 -> 0 < d2 -> n1 * d2 <= n2 * d1 -> n1 / d1 <= n2 / d2.
Proof.
  intros H1 H2 Hle.
  apply Z.div_le_lower_bound; [lia|].
  pose proof (Z.mul_div_le n1 d1 H1).
  assert (d1 * (d2 * (n1 / d1)) <= d1 * n2) by nia.
  nia.
Qed.

Lemma round53_mono n1 d1 n2 d2 :
  0 <= n1 -> 0 < d1 -> 0 < d2 -> n1 * d2 <= n2 * d1 ->
  round53 n1 d1 <= round53 n2 d2.
Proof.
  intros Hn1 H1 H2 Hle. unfold round53.
  pose proof (div_cross_mono _ _ _ _ H1 H2 Hle) as Hq.
  assert (0 <= n1 / d1) as Hq1 by (apply Z.div_pos; lia).
  pose proof (Z.log2_le_mono _ _ Hq) as Hlog.
  set (q1 := n1 / d1) in *. set (q2 := n2 / d2) in *.
  set (k1 := Z.max 0 (Z.log2 q1 - 52)).
  set (k2 := Z.max 0 (Z.log2 q2 - 52)).
  assert (0 <= k1 <= k2) as Hk by lia.
  assert (0 < 2 ^ k1) as P1 by (apply Z.pow_pos_nonneg; lia).
  assert (0 < 2 ^ k2) as P2 by (apply Z.pow_pos_nonneg; lia).
  destruct (Z.eq_dec k1 k2) as [Heq|Hne].
  - rewrite <- Heq. apply Z.mul_le_mono_nonneg_r; [lia|].
    apply rne_mono; nia.
  - (* the second operand lies in a higher binade *)
    assert (0 < k2) as Hk2 by lia.
    assert (k2 = Z.log2 q2 - 52) as Ek2 by lia.
    assert (0 < q2) as Hq2pos.
    { destruct (Z_lt_le_dec 0 q2); [assumption|].
      rewrite (Z.log2_nonpos q2) in Ek2 by lia. lia. }
    pose proof (Z.log2_spec q2 Hq2pos) as [Lq2 _].
    assert (2 ^ (k2 + 52) <= q2) as Lq2' by (rewrite Ek2; replace (Z.log2 q2 - 52 + 52) with (Z.log2 q2) by lia; exact Lq2).
    assert (q1 < 2 ^ (k1 + 53)) as Uq1.
    { destruct (Z.eq_dec q1 0) as [->|].
      - apply Z.pow_pos_nonneg; lia.
      - pose proof (Z.log2_spec q1 ltac:(lia)) as [_ U].
        eapply Z.lt_le_trans; [exact U|].
        apply Z.pow_le_mono_r; lia. }
    (* round53 n1 d1 <= 2^(k1+53) <= 2^(k2+52) <= round53 n2 d2 *)
    assert (rne n1 (d1 * 2 ^ k1) <= 2 ^ 53) as R1.
    { apply rne_le; [nia|].
      pose proof (Z.div_mod n1 d1 ltac:(lia)) as Hdm.
      pose proof (Z.mod_pos_bound n1 d1 H1) as Hmb.
      fold q1 in Hdm.
      assert (n1 < (q1 + 1) * d1) by nia.
      assert (q1 + 1 <= 2 ^ (k1 + 53)) by lia.
      rewrite Z.pow_add_r in H0 by lia.
      nia. }
    assert (2 ^ 52 <= rne n2 (d2 * 2 ^ k2)) as R2.
    { apply rne_ge; [nia|].
      pose proof (Z.mul_div_le n2 d2 H2) as Hdm. fold q2 in Hdm.
      rewrite Z.pow_add_r in Lq2' by lia.
      nia. }
    assert (2 ^ (k1 + 53) <= 2 ^ (k2 + 52)) as Hp by (apply Z.pow_le_mono_r; lia).
    rewrite !Z.pow_add_r in Hp by lia.
    assert (rne n1 (d1 * 2 ^ k1) * 2 ^ k1 <= 2 ^ 53 * 2 ^ k1) by nia.
    assert (2 ^ 52 * 2 ^ k2 <= rne n2 (d2 * 2 ^ k2) * 2 ^ k2) by nia.
    lia.
Qed.

(** ** Evaluation by shifts *)

Lemma rne_shift_eq n d j :
  0 < d -> 0 <= j -> rne_shift n d j = rne n (d * 2 ^ j).
Proof.
  intros Hd Hj. unfold rne_shift, rne.
  assert (0 < 2 ^ j) as Hp by (apply Z.pow_pos_nonneg; lia).
  rewrite Z.shiftr_div_pow2, Z.land_ones, !Z.shiftl_mul_pow2 by lia.
  replace (d * 2 ^ j) with (2 ^ j * d) by lia.
  rewrite <- Z.div_div by lia.
  rewrite (Z.rem_mul_r n (2 ^ j) d) by lia.
  replace (2 * (n / 2 ^ j mod d * 2 ^ j + n mod 2 ^ j))
    with (2 * (n mod 2 ^ j + 2 ^ j * ((n / 2 ^ j) mod d))) by lia.
  reflexivity.
Qed.

Lemma round53_shift_eq n d s :
  0 < d -> 0 <= s -> round53 n (d * 2 ^ s) = round53_shift n d s.
Proof.
  intros Hd Hs. unfold round53, round53_shift.
  assert (0 < 2 ^ s) as Hp by (apply Z.pow_pos_nonneg; lia).
  rewrite Z.shiftr_div_pow2 by lia.
  replace (n / (d * 2 ^ s)) with (n / 2 ^ s / d)
    by (rewrite Z.div_div by lia; f_equal; lia).
  set (k := Z.max 0 (Z.log2 (n / 2 ^ s / d) - 52)).
  rewrite rne_shift_eq, Z.shiftl_mul_pow2 by lia.
  rewrite Z.pow_add_r by lia.
  f_equal. f_equal. lia.
Qed.

Lemma round53_shift_eq0 n d : 0 < d -> round53 n d = round53_shift n d 0.
Proof.
  intros Hd. rewrite <- round53_shift_eq by lia. f_equal. lia.
Qed.

Lemma round53_nonneg n d : 0 <= n -> 0 < d -> 0 <= round53 n d.
Proof.
  intros Hn Hd. unfold round53.
  set (k := Z.max 0 _).
  assert (0 < 2 ^ k) by (apply Z.pow_pos_nonneg; lia).
  assert (0 <= rne n (d * 2 ^ k)) by (apply rne_ge; nia).
  nia.
Qed.

Lemma round53_one : round53 one 1 = one.
Proof. rewrite round53_shift_eq0 by lia. vm_compute. reflexivity. Qed.

Lemma round53_255 : round53 (255 * one) 1 = 255 * one.
Proof. rewrite round53_shift_eq0 by lia. vm_compute. reflexivity. Qed.

Lemma round53_255_max : round53 (255 * one * one) one = 255 * one.
Proof.
  change one with (2 ^ 1074) at 3. 
  replace (2 ^ 1074) with (1 * 2 ^ 1074) at 1 by lia.
  rewrite round53_shift_eq by lia. vm_compute. reflexivity.
Qed.

(** ** The mask byte of a row *)

Lemma one_pos : 0 < one.
Proof. reflexivity. Qed.

Lemma round53_zero d : 0 < d -> round53 0 d = 0.
Proof.
  intros Hd. unfold round53. rewrite Z.div_0_l by lia. simpl Z.log2.
  change (Z.max 0 (0 - 52)) with 0.
  pose proof (rne_exact 0 (d * 2 ^ 0) ltac:(lia)) as H.
  rewrite Z.mul_0_l in H. rewrite H. reflexivity.
Qed.

Lemma max_finite_255 : 255 * one <= max_finite.
Proof. vm_compute. discriminate. Qed.

Lemma quotient_le_one y h : 0 <= y < h -> round53 (y * one) h <= one.
Proof.
  intros Hy. pose proof one_pos.
  rewrite <- round53_one at 2. apply round53_mono; nia.
Qed.

Lemma product_le_255 x :
  0 <= x <= one -> round53 (255 * one * x) one <= 255 * one.
Proof.
  intros Hx. pose proof one_pos.
  etransitivity; [|apply Z.eq_le_incl, round53_255_max].
  apply round53_mono; nia.
Qed.

Lemma truediv_row y h :
  0 <= y < h -> truediv y h = Return (Finite (round53 (y * one) h)).
Proof.
  intros Hy. unfold truediv.
  destruct (Z.eqb_spec h 0) as [|_]; [lia|].
  rewrite (Z.abs_eq y), (Z.abs_eq h) by lia.
  pose proof (quotient_le_one y h Hy) as Hle.
  pose proof max_finite_255. pose proof one_pos.
  destruct (Z.ltb_spec max_finite (round53 (y * one) h)) as [|_]; [lia|].
  do 2 f_equal.
  destruct (Z.eq_dec y 0) as [->|Hne].
  - rewrite Z.mul_0_l, round53_zero by lia. reflexivity.
  - rewrite (Z.sgn_pos y), (Z.sgn_pos h) by lia. lia.
Qed.

Lemma of_int_255 : of_int 255 = Return (Finite (255 * one)).
Proof.
  unfold of_int. change (Z.abs 255) with 255. rewrite round53_255.
  pose proof max_finite_255.
  destruct (Z.ltb_spec max_finite (255 * one)) as [|_]; [lia|]. reflexivity.
Qed.

Lemma mul_255 x :
  0 <= x <= one ->
  mul (Finite (255 * one)) (Finite x) = Finite (round53 (255 * one * x) one).
Proof.
  intros Hx. unfold mul. pose proof one_pos.
  rewrite (Z.abs_eq (255 * one)), (Z.abs_eq x) by lia.
  pose proof (product_le_255 x Hx). pose proof max_finite_255.
  destruct (Z.ltb_spec max_finite (round53 (255 * one * x) one)) as [|_]; [lia|].
  f_equal.
  destruct (Z.eq_dec x 0) as [->|Hne].
  - rewrite Z.mul_0_r, round53_zero by lia. lia.
  - rewrite (Z.sgn_pos (255 * one)), (Z.sgn_pos x) by lia. lia.
Qed.

Lemma mask_value_row y h : 0 <= y < h -> mask_value y h = Return (row_mask y h).
Proof.
  intros Hy. unfold mask_value, row_mask.
  rewrite (truediv_row y h Hy). cbn [Py.bind].
  rewrite of_int_255. cbn [Py.bind].
  pose proof one_pos.
  assert (0 <= round53 (y * one) h <= one) as Hx.
  { split; [apply round53_nonneg; nia | apply quotient_le_one; lia]. }
  rewrite (mul_255 _ Hx). unfold to_int. f_equal.
  apply Z.quot_div_nonneg; [|lia].
  apply round53_nonneg; nia.
Qed.

Lemma row_mask_range y h : 0 <= y < h -> 0 <= row_mask y h <= 255.
Proof.
  intros Hy. unfold row_mask. pose proof one_pos.
  assert (0 <= round53 (y * one) h <= one) as Hx.
  { split; [apply round53_nonneg; nia | apply quotient_le_one; lia]. }
  pose proof (product_le_255 _ Hx).
  assert (0 <= round53 (255 * one * round53 (y * one) h) one)
    by (apply round53_nonneg; nia).
  split; [apply Z.div_pos; lia|].
  apply Z.div_le_upper_bound; lia.
Qed.

Lemma row_mask_mono y y' h :
  0 <= y <= y' -> 0 < h -> row_mask y h <= row_mask y' h.
Proof.
  intros Hy Hh. unfold row_mask. pose proof one_pos.
  apply Z.div_le_mono; [lia|].
  assert (round53 (y * one) h <= round53 (y' * one) h).
  { apply round53_mono; try nia.
    apply Z.mul_le_mono_nonneg_r; [lia|].
    apply Z.mul_le_mono_nonneg_r; lia. }
  assert (0 <= round53 (y * one) h) by (apply round53_nonneg; nia).
  apply round53_mono; nia.
Qed.

Lemma row_mask_0 h : 0 < h -> row_mask 0 h = 0.
Proof.
  intros Hh. unfold row_mask. pose proof one_pos.
  rewrite Z.mul_0_l, round53_zero, Z.mul_0_r, round53_zero by lia.
  reflexivity.
Qed.

(** ** The mask byte is the floor of [255 * y / height] *)

Lemma elem_of_range k n : 0 <= k < n -> k ∈ range n.
Proof.
  intros Hk. unfold range. apply list_elem_of_fmap.
  exists (Z.to_nat k). split; [lia|]. apply elem_of_seq. lia.
Qed.

Lemma range_elem k n : k ∈ range n -> 0 <= k < n.
Proof.
  unfold range. intros H. apply list_elem_of_fmap in H as (i & -> & Hi).
  apply elem_of_seq in Hi. lia.
Qed.

Lemma forallb_range (f : Z -> bool) n k :
  forallb f (range n) = true -> 0 <= k < n -> f k = true.
Proof.
  intros H Hk. rewrite forallb_forall in H. apply H.
  apply list_elem_of_In, elem_of_range, Hk.
Qed.

Lemma round53_shift_one n : round53_shift n 1 unit_exp = round53 n one.
Proof.
  rewrite <- round53_shift_eq by (unfold unit_exp; lia).
  f_equal; unfold one; lia.
Qed.

Lemma enclosure_all : forallb enclosure_ok (range 255) = true.
Proof. vm_compute. reflexivity. Qed.

Lemma enclosure k :
  0 <= k < 255 ->
  k * one <= round53 (255 * one * round53 (k * one) 255) one /\
  round53 (255 * one * round53 (((k + 1) * one - 2 ^ 1033) / 255) 1) one
    < (k + 1) * one.
Proof.
  intros Hk. pose proof (forallb_range _ _ _ enclosure_all Hk) as H.
  unfold enclosure_ok in H. apply andb_true_iff in H as [H1 H2].
  apply Z.leb_le in H1. apply Z.ltb_lt in H2.
  rewrite !round53_shift_one in *.
  rewrite <- !round53_shift_eq0 in * by lia.
  split; assumption.
Qed.

Lemma gap_small : (2 ^ 1033 + 254) * 2 ^ 40 <= one.
Proof. vm_compute. discriminate. Qed.

Lemma row_mask_floor y h :
  0 <= y < h -> h <= 2 ^ 40 -> row_mask y h = 255 * y / h.
Proof.
  intros Hy Hh. pose proof one_pos as Ho.
  set (k := 255 * y / h).
  assert (k * h <= 255 * y) as Klo.
  { pose proof (Z.mul_div_le (255 * y) h ltac:(lia)). unfold k. lia. }
  assert (255 * y < (k + 1) * h) as Khi.
  { pose proof (Z.mul_succ_div_gt (255 * y) h ltac:(lia)). unfold k. lia. }
  assert (0 <= k) as K0 by (apply Z.div_pos; lia).
  assert (k < 255) as K255 by nia.
  destruct (enclosure k ltac:(lia)) as [Elo Ehi].
  unfold row_mask.
  set (X := round53 (y * one) h).
  assert (0 <= X) as X0 by (apply round53_nonneg; nia).
  assert (round53 (k * one) 255 <= X) as Xlo.
  { apply round53_mono; nia. }
  set (c := ((k + 1) * one - 2 ^ 1033) / 255) in *.
  assert (X <= round53 c 1) as Xhi.
  { apply round53_mono; [nia | lia | lia |].
    pose proof gap_small as Hg.
    set (G := 2 ^ 1033) in *. set (T := 2 ^ 40) in *.
    assert ((k + 1) * one - G - 254 <= 255 * c) as Hc.
    { unfold c. pose proof (Z.div_mod ((k + 1) * one - G) 255 ltac:(lia)).
      pose proof (Z.mod_pos_bound ((k + 1) * one - G) 255 ltac:(lia)). lia. }
    assert ((G + 254) * h <= one) as Hgh.
    { etransitivity; [|exact Hg]. apply Z.mul_le_mono_nonneg_l; [|lia].
      subst G. assert (0 < 2 ^ 1033) by (apply Z.pow_pos_nonneg; lia). lia. }
    assert (255 * y * one <= ((k + 1) * h - 1) * one) as A
      by (apply Z.mul_le_mono_nonneg_r; lia).
    assert (((k + 1) * one - G - 254) * h <= 255 * c * h) as Bd
      by (apply Z.mul_le_mono_nonneg_r; lia).
    nia. }
  assert (k * one <= round53 (255 * one * X) one) as Plo.
  { etransitivity; [exact Elo|].
    assert (0 <= round53 (k * one) 255) by (apply round53_nonneg; nia).
    apply round53_mono; nia. }
  assert (round53 (255 * one * X) one < (k + 1) * one) as Phi.
  { eapply Z.le_lt_trans; [|exact Ehi]. apply round53_mono; nia. }
  apply Z.le_antisymm.
  - apply Z.lt_succ_r. apply Z.div_lt_upper_bound; lia.
  - apply Z.div_le_lower_bound; lia.
Qed.

Lemma row_mask_shift_eq y h : 0 < h -> row_mask y h = row_mask_shift y h.
Proof.
  intros Hh. unfold row_mask, row_mask_shift.
  rewrite round53_shift_one, <- round53_shift_eq0 by lia.
  rewrite Z.shiftr_div_pow2 by (unfold unit_exp; lia). reflexivity.
Qed.

(** ** The rounding model against Rocq's IEEE 754 specification

    On every row of the script's canvas, and on every row of every height
    below 16, the mask byte computed with [round53] is the one [SpecFloat]'s
    binary64 division, product and truncation give. *)

Lemma spec_float_check_1024 :
  forallb (fun y => row_mask_shift y 1024 =? sf_scaled_trunc 255 y 1024)
    (range 1024) = true.
Proof. vm_compute. reflexivity. Qed.

Lemma spec_float_check_small :
  forallb
    (fun h => forallb (fun y => row_mask_shift y h =? sf_scaled_trunc 255 y h)
                (range h))
    (range 16) = true.
Proof. vm_compute. reflexivity. Qed.

Lemma row_mask_matches_SpecFloat y :
  0 <= y < size -> row_mask y size = sf_scaled_trunc 255 y size.
Proof.
  intros Hy. rewrite row_mask_shift_eq by reflexivity. apply Z.eqb_eq.
  exact (forallb_range
           (fun y => row_mask_shift y 1024 =? sf_scaled_trunc 255 y 1024)
           1024 y spec_float_check_1024 Hy).
Qed.

Lemma row_mask_matches_SpecFloat_small y h :
  0 <= y < h -> h < 16 -> row_mask y h = sf_scaled_trunc 255 y h.
Proof.
  intros Hy Hh. rewrite row_mask_shift_eq by lia. apply Z.eqb_eq.
  pose proof (forallb_range _ 16 h spec_float_check_small ltac:(lia)) as H.
  cbv beta in H.
  exact (forallb_range
           (fun y => row_mask_shift y h =? sf_scaled_trunc 255 y h) h y H Hy).
Qed.

(** ** Rows of the mask *)

Lemma for_each_rows (w : nat) h ys acc :
  (forall y, y ∈ ys -> 0 <= y < h) ->
  for_each ys
    (fun mask_data y =>
       (v <- mask_value y h ;; Return (mask_data ++ replicate w v))%py) acc
  = Return (acc ++ flat_map (fun y => replicate w (row_mask y h)) ys).
Proof.
  revert acc. induction ys as [|y ys IH]; intros acc Hys; cbn [for_each flat_map].
  - rewrite app_nil_r. reflexivity.
  - rewrite (mask_value_row y h) by (apply Hys; left).
    cbn [Py.bind]. rewrite IH by (intros; apply Hys; right; assumption).
    rewrite <- app_assoc. reflexivity.
Qed.

Lemma length_rows {A} (g : Z -> A) (w : nat) (ys : list Z) :
  length (flat_map (fun y => replicate w (g y)) ys) = (length ys * w)%nat.
Proof.
  induction ys as [|y ys IH]; cbn [flat_map length]; [reflexivity|].
  rewrite length_app, length_replicate, IH. lia.
Qed.

Lemma lookup_rows {A} (g : Z -> A) (w : nat) (s n i j : nat) :
  (i < n)%nat -> (j < w)%nat ->
  flat_map (fun y => replicate w (g y)) (Z.of_nat <$> seq s n) !! (i * w + j)%nat
  = Some (g (Z.of_nat (s + i))).
Proof.
  revert s i. induction n as [|n IH]; intros s i Hi Hj; [lia|].
  cbn [seq fmap list_fmap flat_map].
  destruct i as [|i].
  - rewrite lookup_app_l by (rewrite length_replicate; lia).
    rewrite Nat.add_0_r. apply lookup_replicate. split; [reflexivity|lia].
  - rewrite lookup_app_r by (rewrite length_replicate; lia).
    rewrite length_replicate.
    replace (S i * w + j - w)%nat with (i * w + j)%nat by lia.
    rewrite (IH (S s) i) by lia. do 2 f_equal. lia.
Qed.

(** ** Cells of an image *)

Lemma cell_index (w x y : Z) :
  0 <= x < w -> 0 <= y ->
  Z.of_nat (Z.to_nat (y * w + x)) mod w = x /\
  Z.of_nat (Z.to_nat (y * w + x)) / w = y.
Proof.
  intros Hx Hy. rewrite Z2Nat.id by nia. split.
  - rewrite Z.add_comm, Z.mod_add by lia. apply Z.mod_small; lia.
  - rewrite Z.add_comm, Z.div_add by lia. rewrite Z.div_small by lia. lia.
Qed.

Lemma cell_at_inside im x y :
  0 <= x < im_width im -> 0 <= y < im_height im ->
  cell_at im x y = im_data im !! Z.to_nat (y * im_width im + x).
Proof.
  intros Hx Hy. unfold cell_at.
  destruct (Z.leb_spec 0 x); [|lia].
  destruct (Z.ltb_spec x (im_width im)); [|lia].
  destruct (Z.leb_spec 0 y); [|lia].
  destruct (Z.ltb_spec y (im_height im)); [|lia].
  reflexivity.
Qed.

Lemma cell_at_Some im x y c :
  cell_at im x y = Some c ->
  0 <= x < im_width im /\ 0 <= y < im_height im.
Proof.
  unfold cell_at.
  destruct (Z.leb_spec 0 x); [|discriminate].
  destruct (Z.ltb_spec x (im_width im)); [|discriminate].
  destruct (Z.leb_spec 0 y); [|discriminate].
  destruct (Z.ltb_spec y (im_height im)); [|discriminate].
  lia.
Qed.

Lemma cell_at_map_cells f im x y :
  cell_at (map_cells f im) x y = f x y <$> cell_at im x y.
Proof.
  unfold cell_at, map_cells; cbn [im_width im_height im_data].
  destruct (Z.leb_spec 0 x); [|reflexivity].
  destruct (Z.ltb_spec x (im_width im)); [|reflexivity].
  destruct (Z.leb_spec 0 y); [|reflexivity].
  destruct (Z.ltb_spec y (im_height im)); [|reflexivity].
  cbn [andb]. rewrite list_lookup_imap.
  destruct (cell_index (im_width im) x y ltac:(lia) ltac:(lia)) as [-> ->].
  reflexivity.
Qed.

Lemma cell_at_replicate m w h c x y :
  0 <= x < w -> 0 <= y < h ->
  cell_at (mk_image m w h (replicate (Z.to_nat (w * h)) c)) x y = Some c.
Proof.
  intros Hx Hy. rewrite cell_at_inside by (cbn; lia). cbn [im_data im_width].
  apply lookup_replicate. split; [reflexivity|]. nia.
Qed.

Lemma clip8_id v : 0 <= v <= 255 -> clip8 v = v.
Proof.
  intros Hv. unfold clip8.
  destruct (Z.ltb_spec v 0); [lia|]. destruct (Z.ltb_spec 255 v); [lia|]. reflexivity.
Qed.

Lemma new_ok m w h c i :
  0 <= w -> 0 <= h -> getink m (default (Gray 0) c) = Return i ->
  new m (w, h) c = Return (mk_image m w h (replicate (Z.to_nat (w * h)) i)).
Proof.
  intros Hw Hh G. unfold new.
  destruct (Z.ltb_spec w 0); [lia|]. destruct (Z.ltb_spec h 0); [lia|].
  cbn [orb]. rewrite G. reflexivity.
Qed.

Lemma paste_same base src mask :
  im_mode src = im_mode base -> im_mode mask = L ->
  im_width mask = im_width src -> im_height mask = im_height src ->
  paste base src mask
  = Return (map_cells
              (fun x y out =>
                 match cell_at src x y, cell_at mask x y with
                 | Some inp, Some (m, _, _, _) => blend_cell m out inp
                 | _, _ => out
                 end) base).
Proof.
  intros Hm HL Hw Hh. unfold paste.
  assert (mode_eqb (im_mode src) (im_mode base) = true) as ->
    by (rewrite Hm; destruct (im_mode base); reflexivity).
  rewrite HL. cbn [mode_eqb negb].
  rewrite Hw, Hh, !Z.eqb_refl. reflexivity.
Qed.

(** ** [create_gradient], cell by cell *)

Lemma create_gradient_cells w h c1 c2 i1 i2 :
  0 <= w -> 0 <= h ->
  getink RGB c1 = Return i1 -> getink RGB c2 = Return i2 ->
  exists img,
    create_gradient w h c1 c2 = Return img /\
    im_mode img = RGB /\ im_width img = w /\ im_height img = h /\
    length (im_data img) = Z.to_nat (w * h) /\
    forall x y, 0 <= x < w -> 0 <= y < h ->
      cell_at img x y = Some (blend_cell (row_mask y h) i1 i2).
Proof.
  intros Hw Hh G1 G2. unfold create_gradient.
  rewrite (new_ok RGB w h (Some c1) i1), (new_ok RGB w h (Some c2) i2),
    (new_ok L w h None (0, 0, 0, 0)) by (assumption || reflexivity).
  cbn [Py.bind].
  rewrite for_each_rows by (intros y Hy; apply range_elem in Hy; lia).
  cbn [Py.bind app].
  set (rows := flat_map _ _).
  assert (length rows = Z.to_nat (w * h)) as Hlen.
  { unfold rows. rewrite length_rows. unfold range.
    rewrite length_fmap, length_seq. rewrite Z2Nat.inj_mul by lia. lia. }
  unfold putdata; cbn [im_data im_mode im_width im_height].
  rewrite length_replicate, Hlen, Nat.ltb_irrefl.
  cbn [Py.bind]. rewrite paste_same by reflexivity.
  eexists. split; [reflexivity|].
  split; [reflexivity|]. split; [reflexivity|]. split; [reflexivity|].
  split; [cbn; rewrite length_imap, length_replicate; reflexivity|].
  intros x y Hx Hy.
  rewrite cell_at_map_cells, !cell_at_replicate by lia. cbn [fmap option_fmap option_map].
  rewrite cell_at_inside by (cbn; lia). cbn [im_data im_width].
  rewrite lookup_app_l by (rewrite length_fmap, Hlen; nia).
  rewrite list_lookup_fmap.
  replace (Z.to_nat (y * w + x)) with (Z.to_nat y * Z.to_nat w + Z.to_nat x)%nat
    by (rewrite Z2Nat.inj_add, Z2Nat.inj_mul by nia; reflexivity).
  unfold rows, range. rewrite lookup_rows by lia.
  cbn [fmap option_fmap option_map]. rewrite Nat.add_0_l, Z2Nat.id by lia.
  rewrite clip8_id by (apply row_mask_range; lia). reflexivity.
Qed.

(** ** The blend *)

Lemma DIV255_round a : 0 <= a <= 65025 -> DIV255 a = (a + 127) / 255.
Proof.
  intros Ha. unfold DIV255. rewrite !Z.shiftr_div_pow2 by lia.
  change (2 ^ 8) with 256.
  pose proof (Z.div_mod (a + 128) 256 ltac:(lia)) as Hdm.
  pose proof (Z.mod_pos_bound (a + 128) 256 ltac:(lia)) as Hmb.
  set (q := (a + 128) / 256) in *. set (r := (a + 128) mod 256) in *.
  destruct (Z_lt_le_dec (q + r) 256) as [Hlt|Hge].
  - transitivity q.
    + symmetry. apply (Z.div_unique _ _ _ (q + r)); lia.
    + apply (Z.div_unique _ _ _ (q + r - 1)); lia.
  - transitivity (q + 1).
    + symmetry. apply (Z.div_unique _ _ _ (q + r - 256)); lia.
    + apply (Z.div_unique _ _ _ (q + r - 256)); lia.
Qed.


Lemma BLEND_round m s e :
  byte m -> byte s -> byte e ->
  BLEND m s e = (s * (255 - m) + e * m + 127) / 255.
Proof.
  unfold byte. intros Hm Hs He. unfold BLEND. apply DIV255_round. nia.
Qed.

Lemma BLEND_byte m s e : byte m -> byte s -> byte e -> byte (BLEND m s e).
Proof.
  intros Hm Hs He. rewrite BLEND_round by assumption. unfold byte in *.
  assert (0 <= s * (255 - m) + e * m <= 65025) by nia.
  split.
  - apply Z.div_pos; lia.
  - assert ((s * (255 - m) + e * m + 127) / 255 < 256)
      by (apply Z.div_lt_upper_bound; lia).
    lia.
Qed.

Lemma BLEND_0 s e : byte s -> byte e -> BLEND 0 s e = s.
Proof.
  intros Hs He. rewrite BLEND_round by (unfold byte in *; lia).
  unfold byte in *.
  replace (s * (255 - 0) + e * 0 + 127) with (127 + s * 255) by lia.
  rewrite Z.div_add by lia. reflexivity.
Qed.

Lemma BLEND_mono m m' s e :
  byte m -> byte m' -> byte s -> byte e -> m <= m' ->
  (s <= e -> BLEND m s e <= BLEND m' s e) /\
  (e <= s -> BLEND m' s e <= BLEND m s e).
Proof.
  intros Hm Hm' Hs He Hle. rewrite !BLEND_round by assumption.
  unfold byte in *.
  split; intros; apply Z.div_le_mono; nia.
Qed.

Lemma BLEND_last m s e :
  254 <= m <= 255 -> byte s -> byte e -> Z.abs (BLEND m s e - e) <= 1.
Proof.
  intros Hm Hs He. rewrite BLEND_round by (unfold byte in *; lia).
  unfold byte in *.
  assert (e - 1 <= (s * (255 - m) + e * m + 127) / 255).
  { apply Z.div_le_lower_bound; nia. }
  assert ((s * (255 - m) + e * m + 127) / 255 < e + 2).
  { apply Z.div_lt_upper_bound; nia. }
  assert ((s * (255 - m) + e * m + 127) / 255 <= e + 1) by lia.
  lia.
Qed.

(** The quantised blend against the exact interpolation. *)
Lemma BLEND_near_exact s e y h r :
  byte s -> byte e -> 0 <= y < h ->
  is_nearest r (exact_num s e y h) h = true ->
  Z.abs (BLEND (255 * y / h) s e - r) <= 1.
Proof.
  intros Hs He Hy Hr. unfold is_nearest, exact_num in Hr. apply Z.leb_le in Hr.
  set (m := 255 * y / h).
  assert (m * h <= 255 * y) as Mlo.
  { pose proof (Z.mul_div_le (255 * y) h ltac:(lia)). unfold m. lia. }
  assert (255 * y < (m + 1) * h) as Mhi.
  { pose proof (Z.mul_succ_div_gt (255 * y) h ltac:(lia)). unfold m. lia. }
  assert (0 <= m) as M0 by (apply Z.div_pos; lia).
  assert (m < 255) as M255 by nia.
  rewrite BLEND_round by (unfold byte in *; lia).
  unfold byte in *.
  set (a := s * (255 - m) + e * m) in *.
  set (v := (a + 127) / 255).
  (* 255 v is within 127 of a *)
  pose proof (Z.div_mod (a + 127) 255 ltac:(lia)) as Hdm.
  pose proof (Z.mod_pos_bound (a + 127) 255 ltac:(lia)) as Hmb.
  fold v in Hdm.
  assert (-127 <= a - 255 * v <= 127) as Hv by lia.
  (* 255 h (a/255 - exact) is below 255 h in size *)
  assert (Z.abs (a * h - 255 * (s * h + y * (e - s))) < 255 * h) as Hd.
  { replace (a * h - 255 * (s * h + y * (e - s)))
      with ((e - s) * (m * h - 255 * y)) by (unfold a; lia).
    rewrite Z.abs_mul.
    assert (Z.abs (e - s) <= 255) by lia.
    assert (Z.abs (m * h - 255 * y) < h) by lia.
    assert (0 <= Z.abs (m * h - 255 * y)) by lia.
    nia. }
  (* so 510 h |v - r| < 510 h + 254 h + 255 h < 3 * 510 h *)
  assert (510 * h * Z.abs (v - r) < 510 * h * 2) as Hfin.
  { assert (510 * h * (v - r)
            = 2 * h * (255 * v - a)
              + 2 * (a * h - 255 * (s * h + y * (e - s)))
              + 510 * ((s * h + y * (e - s)) - r * h)) as Hsplit by lia.
    assert (Z.abs (2 * h * (255 * v - a)) <= 254 * h) by (rewrite Z.abs_mul; nia).
    assert (Z.abs (510 * (s * h + y * (e - s) - r * h)) <= 255 * h).
    { rewrite Z.abs_mul. replace (s * h + y * (e - s) - r * h)
        with (- (r * h - (s * h + y * (e - s)))) by lia.
      rewrite Z.abs_opp. lia. }
    replace (510 * h * Z.abs (v - r)) with (Z.abs (510 * h * (v - r)))
      by (rewrite Z.abs_mul, (Z.abs_eq (510 * h)); lia).
    rewrite Hsplit. lia. }
  assert (Z.abs (v - r) < 2) by nia.
  lia.
Qed.

(** ** The gradient *)

(** From height 255 on the mask byte of the last row is 254 or 255: the
    quotient (h - 1) / h is at least 254 / 255, whose mask byte the
    enclosure gives. *)
Lemma row_mask_last h : 255 <= h -> 254 <= row_mask (h - 1) h <= 255.
Proof.
  intros Hh. split; [|apply row_mask_range; lia].
  pose proof one_pos as Ho.
  destruct (enclosure 254 ltac:(lia)) as [Hc _].
  unfold row_mask. apply Z.div_le_lower_bound; [lia|].
  rewrite Z.mul_comm. etransitivity; [exact Hc|].
  assert (0 <= round53 (254 * one) 255) by (apply round53_nonneg; lia).
  assert (round53 (254 * one) 255 <= round53 ((h - 1) * one) h)
    by (apply round53_mono; nia).
  apply round53_mono; nia.
Qed.

(** Below height 255 it is 253 at most. *)
Lemma row_mask_last_low h : 0 < h < 255 -> 0 <= row_mask (h - 1) h <= 253.
Proof.
  intros Hh. rewrite row_mask_floor by lia. split.
  - apply Z.div_pos; lia.
  - apply Z.lt_succ_r. apply Z.div_lt_upper_bound; lia.
Qed.

Lemma getink_RGBc r g b :
  byte r -> byte g -> byte b -> getink RGB (RGBc r g b) = Return (r, g, b, 255).
Proof.
  unfold byte. intros Hr Hg Hb. cbn [getink]. rewrite !clip8_id by lia. reflexivity.
Qed.

Lemma getpixel_RGB im x y r g b p :
  im_mode im = RGB -> cell_at im x y = Some (r, g, b, p) ->
  getpixel im x y = Return [r; g; b].
Proof. intros Hm Hc. unfold getpixel. rewrite Hc, Hm. reflexivity. Qed.

(** Every pixel of the gradient is the blend of the two colours by the
    mask byte of its row. *)
Lemma gradient_pixel w h r1 g1 b1 r2 g2 b2 :
  0 <= w -> 0 <= h ->
  byte r1 -> byte g1 -> byte b1 -> byte r2 -> byte g2 -> byte b2 ->
  exists img,
    create_gradient w h (RGBc r1 g1 b1) (RGBc r2 g2 b2) = Return img /\
    im_mode img = RGB /\ im_width img = w /\ im_height img = h /\
    length (im_data img) = Z.to_nat (w * h) /\
    forall x y, 0 <= x < w -> 0 <= y < h ->
      getpixel img x y
      = Return [BLEND (row_mask y h) r1 r2; BLEND (row_mask y h) g1 g2;
                BLEND (row_mask y h) b1 b2].
Proof.
  intros Hw Hh R1 G1 B1 R2 G2 B2.
  destruct (create_gradient_cells w h (RGBc r1 g1 b1) (RGBc r2 g2 b2)
              (r1, g1, b1, 255) (r2, g2, b2, 255) Hw Hh
              (getink_RGBc _ _ _ R1 G1 B1) (getink_RGBc _ _ _ R2 G2 B2))
    as (img & E & Hm & Hwd & Hht & Hl & Hc).
  exists img. repeat (split; [assumption|]).
  intros x y Hx Hy. eapply getpixel_RGB; [exact Hm|].
  rewrite (Hc x y Hx Hy). reflexivity.
Qed.

(** C2 (amended): for every width > 0, height H > 0 and 8-bit colours, row 0
    of the canvas [create_gradient] returns has the start colour, and,
    whenever H >= 255, row H-1 is within 1 per channel of the end colour. *)
Theorem gradient_first_and_last_row w h r1 g1 b1 r2 g2 b2 :
  0 < w -> 0 < h ->
  byte r1 -> byte g1 -> byte b1 -> byte r2 -> byte g2 -> byte b2 ->
  exists img,
    create_gradient w h (RGBc r1 g1 b1) (RGBc r2 g2 b2) = Return img /\
    (forall x, 0 <= x < w -> getpixel img x 0 = Return [r1; g1; b1]) /\
    (255 <= h -> forall x, 0 <= x < w ->
       exists p, getpixel img x (h - 1) = Return p /\
                 close_to 1 p [r2; g2; b2] = true).
Proof.
  intros Hw Hh R1 G1 B1 R2 G2 B2.
  destruct (gradient_pixel w h r1 g1 b1 r2 g2 b2) as (img & E & _ & _ & _ & _ & Hp);
    try assumption; try lia.
  exists img. split; [exact E|]. split.
  - intros x Hx. rewrite (Hp x 0) by lia.
    rewrite row_mask_0, !BLEND_0 by assumption. reflexivity.
  - intros H255 x Hx. eexists. split; [apply Hp; lia|].
    pose proof (row_mask_last h H255) as Hm.
    cbn [close_to]. rewrite !andb_true_iff, !Z.leb_le.
    repeat split; apply BLEND_last; assumption.
Qed.

Lemma gradient_first_and_last_row_witness :
  exists img,
    create_gradient 2 255 (RGBc 0 122 255) (RGBc 88 86 214) = Return img /\
    (forall x, 0 <= x < 2 -> getpixel img x 0 = Return [0; 122; 255]) /\
    (255 <= 255 -> forall x, 0 <= x < 2 ->
       exists p, getpixel img x (255 - 1) = Return p /\
                 close_to 1 p [88; 86; 214] = true).
Proof.
  apply (gradient_first_and_last_row 2 255 0 122 255 88 86 214);
    unfold byte; lia.
Defined.

(** C2 as stated fails for small heights: with H = 1 the last row is row 0
    and keeps the start colour (0, 122, 255), 88 away from the end colour
    (88, 86, 214) in the red channel. *)
Lemma gradient_last_row_height_1 :
  exists img,
    create_gradient 1 1 (RGBc 0 122 255) (RGBc 88 86 214) = Return img /\
    getpixel img 0 (1 - 1) = Return [0; 122; 255] /\
    close_to 1 [0; 122; 255] [88; 86; 214] = false.
Proof.
  destruct (gradient_pixel 1 1 0 122 255 88 86 214)
    as (img & E & _ & _ & _ & _ & Hp); unfold byte; try lia.
  exists img. split; [exact E|]. split; [|reflexivity].
  rewrite (Hp 0 (1 - 1)) by lia. change (1 - 1) with 0.
  rewrite row_mask_0 by lia. reflexivity.
Qed.

(** The bound 255 is the least: at every height below it the last row of
    the gradient from white to black is 2 or more away from black. *)
Lemma gradient_last_row_below_255 w h :
  0 < w -> 0 < h < 255 ->
  exists img,
    create_gradient w h (RGBc 255 255 255) (RGBc 0 0 0) = Return img /\
    forall x, 0 <= x < w ->
      exists p, getpixel img x (h - 1) = Return p /\
                close_to 1 p [0; 0; 0] = false.
Proof.
  intros Hw Hh.
  destruct (gradient_pixel w h 255 255 255 0 0 0)
    as (img & E & _ & _ & _ & _ & Hp); unfold byte; try lia.
  exists img. split; [exact E|].
  intros x Hx. eexists. split; [apply Hp; lia|].
  pose proof (row_mask_last_low h Hh) as Hm.
  rewrite BLEND_round by (unfold byte; lia).
  set (v := (255 * (255 - row_mask (h - 1) h) + 0 * row_mask (h - 1) h + 127) / 255).
  assert (2 <= v) as Hv by (unfold v; apply Z.div_le_lower_bound; lia).
  cbn [close_to].
  destruct (Z.leb_spec (Z.abs (v - 0)) 1) as [Hle|_]; [lia|reflexivity].
Qed.

(** C3 (amended): for every row [y] and column of the canvas, each channel
    is the blend [DIV255 (start * (255 - m) + end * m)] by the row's mask
    byte [m = int(255 * (y / height))], the same along the row; for
    heights up to 2^40 the mask byte is [floor (255 * y / height)] and the
    channel is within 1 of any nearest integer to
    [start + (y / height) * (end - start)]. *)
Theorem gradient_rows_quantised w h r1 g1 b1 r2 g2 b2 :
  0 < w -> 0 < h ->
  byte r1 -> byte g1 -> byte b1 -> byte r2 -> byte g2 -> byte b2 ->
  exists img,
    create_gradient w h (RGBc r1 g1 b1) (RGBc r2 g2 b2) = Return img /\
    forall x y, 0 <= x < w -> 0 <= y < h ->
      mask_value y h = Return (row_mask y h) /\
      getpixel img x y
      = Return [BLEND (row_mask y h) r1 r2; BLEND (row_mask y h) g1 g2;
                BLEND (row_mask y h) b1 b2] /\
      (forall x', 0 <= x' < w -> getpixel img x' y = getpixel img x y) /\
      (h <= 2 ^ 40 ->
       row_mask y h = 255 * y / h /\
       forall rr rg rb,
         is_nearest rr (exact_num r1 r2 y h) h = true ->
         is_nearest rg (exact_num g1 g2 y h) h = true ->
         is_nearest rb (exact_num b1 b2 y h) h = true ->
         close_to 1 [BLEND (row_mask y h) r1 r2; BLEND (row_mask y h) g1 g2;
                     BLEND (row_mask y h) b1 b2] [rr; rg; rb] = true).
Proof.
  intros Hw Hh R1 G1 B1 R2 G2 B2.
  destruct (gradient_pixel w h r1 g1 b1 r2 g2 b2) as (img & E & _ & _ & _ & _ & Hp);
    try assumption; try lia.
  exists img. split; [exact E|].
  intros x y Hx Hy.
  split; [apply mask_value_row; lia|].
  split; [apply Hp; assumption|].
  split; [intros x' Hx'; rewrite !Hp by assumption; reflexivity|].
  intros Hb. pose proof (row_mask_floor y h Hy Hb) as Hm.
  split; [exact Hm|].
  intros rr rg rb Nr Ng Nb. rewrite Hm.
  cbn [close_to]. rewrite !andb_true_iff, !Z.leb_le.
  repeat split; apply BLEND_near_exact; assumption.
Qed.

Lemma gradient_rows_quantised_witness :
  exists img,
    create_gradient 2 3 (RGBc 0 122 255) (RGBc 88 86 214) = Return img /\
    forall x y, 0 <= x < 2 -> 0 <= y < 3 ->
      mask_value y 3 = Return (row_mask y 3) /\
      getpixel img x y
      = Return [BLEND (row_mask y 3) 0 88; BLEND (row_mask y 3) 122 86;
                BLEND (row_mask y 3) 255 214] /\
      (forall x', 0 <= x' < 2 -> getpixel img x' y = getpixel img x y) /\
      (3 <= 2 ^ 40 ->
       row_mask y 3 = 255 * y / 3 /\
       forall rr rg rb,
         is_nearest rr (exact_num 0 88 y 3) 3 = true ->
         is_nearest rg (exact_num 122 86 y 3) 3 = true ->
         is_nearest rb (exact_num 255 214 y 3) 3 = true ->
         close_to 1 [BLEND (row_mask y 3) 0 88; BLEND (row_mask y 3) 122 86;
                     BLEND (row_mask y 3) 255 214] [rr; rg; rb] = true).
Proof.
  apply (gradient_rows_quantised 2 3 0 122 255 88 86 214); unfold byte; lia.
Defined.

(** Row 6 and the last row of the script's canvas. *)
Example row_mask_of_row_6 : row_mask 6 size = 1.
Proof. rewrite row_mask_floor by (unfold size; lia). reflexivity. Qed.

Example row_mask_of_last_row : row_mask (size - 1) size = 254.
Proof. rewrite row_mask_floor by (unfold size; lia). reflexivity. Qed.

Example blend_of_row_6 :
  (BLEND 1 0 88, BLEND 1 122 86, BLEND 1 255 214) = (0, 122, 255).
Proof. reflexivity. Qed.

Example blend_of_last_row :
  (BLEND 254 0 88, BLEND 254 122 86, BLEND 254 255 214) = (88, 86, 214).
Proof. reflexivity. Qed.

(** C3 as stated fails on the script's own canvas: in row 6 the red channel
    is 0, while [0 + (6 / 1024) * 88 = 0.515...] rounds to 1, and 0 is not
    a nearest integer to it. *)
Lemma gradient_row_6_off_reference :
  exists img,
    create_gradient size size color1 color2 = Return img /\
    getpixel img 0 6 = Return [0; 122; 255] /\
    reference_channel 0 88 6 size = 1 /\
    is_nearest 0 (exact_num 0 88 6 size) size = false.
Proof.
  destruct (gradient_pixel size size 0 122 255 88 86 214)
    as (img & E & _ & _ & _ & _ & Hp); unfold byte, size; try lia.
  exists img. split; [exact E|]. split; [|split; reflexivity].
  rewrite (Hp 0 6) by (unfold size; lia).
  rewrite row_mask_floor by (unfold size; lia). reflexivity.
Qed.

(** C4: the gradient is monotonic per channel: from each row to the next, a
    channel whose start value is at most its end value does not decrease,
    and a channel whose start value is at least its end value does not
    increase. *)
Theorem gradient_monotone w h r1 g1 b1 r2 g2 b2 :
  0 < w -> 0 < h ->
  byte r1 -> byte g1 -> byte b1 -> byte r2 -> byte g2 -> byte b2 ->
  exists img,
    create_gradient w h (RGBc r1 g1 b1) (RGBc r2 g2 b2) = Return img /\
    forall x x' y, 0 <= x < w -> 0 <= x' < w -> 0 <= y -> y + 1 < h ->
      exists pr pg pb qr qg qb,
        getpixel img x y = Return [pr; pg; pb] /\
        getpixel img x' (y + 1) = Return [qr; qg; qb] /\
        (r1 <= r2 -> pr <= qr) /\ (r2 <= r1 -> qr <= pr) /\
        (g1 <= g2 -> pg <= qg) /\ (g2 <= g1 -> qg <= pg) /\
        (b1 <= b2 -> pb <= qb) /\ (b2 <= b1 -> qb <= pb).
Proof.
  intros Hw Hh R1 G1 B1 R2 G2 B2.
  destruct (gradient_pixel w h r1 g1 b1 r2 g2 b2) as (img & E & _ & _ & _ & _ & Hp);
    try assumption; try lia.
  exists img. split; [exact E|].
  intros x x' y Hx Hx' Hy Hy'.
  do 6 eexists.
  split; [apply Hp; lia|]. split; [apply Hp; lia|].
  assert (byte (row_mask y h)) as M1 by (apply row_mask_range; lia).
  assert (byte (row_mask (y + 1) h)) as M2 by (apply row_mask_range; lia).
  assert (row_mask y h <= row_mask (y + 1) h) as Hle
    by (apply row_mask_mono; lia).
  destruct (BLEND_mono _ _ r1 r2 M1 M2 R1 R2 Hle).
  destruct (BLEND_mono _ _ g1 g2 M1 M2 G1 G2 Hle).
  destruct (BLEND_mono _ _ b1 b2 M1 M2 B1 B2 Hle).
  repeat split; assumption.
Qed.

Lemma gradient_monotone_witness :
  exists img,
    create_gradient 2 3 (RGBc 0 122 255) (RGBc 88 86 214) = Return img /\
    forall x x' y, 0 <= x < 2 -> 0 <= x' < 2 -> 0 <= y -> y + 1 < 3 ->
      exists pr pg pb qr qg qb,
        getpixel img x y = Return [pr; pg; pb] /\
        getpixel img x' (y + 1) = Return [qr; qg; qb] /\
        (0 <= 88 -> pr <= qr) /\ (88 <= 0 -> qr <= pr) /\
        (122 <= 86 -> pg <= qg) /\ (86 <= 122 -> qg <= pg) /\
        (255 <= 214 -> pb <= qb) /\ (214 <= 255 -> qb <= pb).
Proof.
  apply (gradient_monotone 2 3 0 122 255 88 86 214); unfold byte; lia.
Defined.

(** ** Height 0 *)





(** ** Drawing calls keep the shape of the canvas *)

Section Drawing.
Context `{B : Backend}.


Lemma same_shape_refl a : same_shape a a.
Proof. repeat split. Qed.

Lemma same_shape_trans a b c : same_shape a b -> same_shape b c -> same_shape a c.
Proof. unfold same_shape. intuition congruence. Qed.

Lemma paint_shape cov ink im : same_shape (paint cov ink im) im.
Proof.
  unfold same_shape, paint, map_cells; cbn. rewrite length_imap. repeat split.
Qed.

Lemma cell_at_paint cov ink im x y :
  cell_at (paint cov ink im) x y
  = (fun c => if cov x y then ink else c) <$> cell_at im x y.
Proof. unfold paint. apply cell_at_map_cells. Qed.

Lemma ellipse_shape im xy fill outline width im' :
  ellipse im xy fill outline width = Return im' -> same_shape im' im.
Proof.
  unfold ellipse. destruct (_getink _ _ _) as [[ink fill_ink]|]; [|discriminate].
  cbn [Py.bind]. destruct xy as [[[x0 y0] x1] y1].
  destruct (x1 <? x0); [discriminate|]. destruct (y1 <? y0); [discriminate|].
  intros [= <-].
  destruct fill_ink as [f|], ink as [i|];
    repeat match goal with
           | |- context [if ?b then _ else _] => destruct b
           end;
    repeat first [apply same_shape_refl
                 | eapply same_shape_trans; [apply paint_shape|]].
Qed.

Lemma line_shape im p q fill width im' :
  line im p q fill width = Return im' -> same_shape im' im.
Proof.
  unfold line. destruct (_getink _ _ _) as [[ink fill_ink]|]; [|discriminate].
  cbn [Py.bind fst]. destruct ink; intros [= <-];
    [apply paint_shape | apply same_shape_refl].
Qed.

Lemma apply_call_shape im c im' :
  apply_call im c = Return im' -> same_shape im' im.
Proof.
  destruct c; cbn [apply_call]; [apply ellipse_shape | apply line_shape].
Qed.


Lemma apply_call_total im c :
  im_mode im = RGB -> c ∈ script_calls -> exists im', apply_call im c = Return im'.
Proof.
  intros Hm Hc. unfold script_calls, lens_circles, viewfinder_corners,
    top_left_corner, top_right_corner, bottom_left_corner, bottom_right_corner in Hc.
  cbn [app] in Hc.
  repeat (apply elem_of_cons in Hc as [->|Hc]);
    [..|apply elem_of_nil in Hc; contradiction];
    eexists; unfold outer_circle, inner_circle; cbn [apply_call];
    unfold ellipse, line; rewrite Hm; reflexivity.
Qed.

Lemma icon_shaped_same a b : same_shape a b -> icon_shaped b -> icon_shaped a.
Proof. unfold same_shape, icon_shaped. intuition congruence. Qed.

Lemma for_each_app {A S} (f : S -> A -> result S) l1 l2 a :
  for_each (l1 ++ l2) f a = Py.bind (for_each l1 f a) (for_each l2 f).
Proof.
  revert a. induction l1 as [|x l1 IH]; intros a; cbn; [reflexivity|].
  destruct (f a x); cbn; [apply IH|reflexivity].
Qed.

Lemma last_cons {A} (l : list A) a d : List.last (a :: l) d = List.last l a.
Proof.
  revert a d. induction l as [|b l IH]; intros a d; [reflexivity|].
  change (List.last (a :: b :: l) d) with (List.last (b :: l) d).
  rewrite (IH b d), (IH b a). reflexivity.
Qed.

Lemma scan_calls_ok calls im :
  (forall c, c ∈ calls -> c ∈ script_calls) -> icon_shaped im ->
  exists later,
    scan_calls im calls = Return later /\
    length later = length calls /\
    Forall icon_shaped later /\
    for_each calls apply_call im = Return (List.last later im).
Proof.
  revert im. induction calls as [|c calls IH]; intros im Hin Him.
  - exists []. repeat split. constructor.
  - destruct (apply_call_total im c) as [im1 E1];
      [apply Him | apply Hin; left |].
    pose proof (icon_shaped_same _ _ (apply_call_shape _ _ _ E1) Him) as Him1.
    destruct (IH im1) as (later & E & Hl & Hf & Hlast);
      [intros; apply Hin; right; assumption | assumption |].
    exists (im1 :: later). cbn [scan_calls for_each].
    rewrite E1; cbn [Py.bind]. rewrite E; cbn [Py.bind].
    split; [reflexivity|]. split; [cbn; lia|]. split; [constructor; assumption|].
    rewrite Hlast, last_cons. reflexivity.
Qed.

Lemma gradient_icon_shaped :
  exists img, create_gradient size size color1 color2 = Return img /\
              icon_shaped img.
Proof.
  destruct (gradient_pixel size size 0 122 255 88 86 214)
    as (img & E & Hm & Hw & Hh & Hl & _); unfold byte, size; try lia.
  exists img. split; [exact E|]. repeat split; assumption.
Qed.

(** The history of the canvas, and its last state as what is rendered. *)
Lemma canvas_history_ok :
  exists img later,
    canvas_history = Return (img :: later) /\
    length later = 10%nat /\
    Forall icon_shaped (img :: later) /\
    render = Return (List.last later img).
Proof.
  destruct gradient_icon_shaped as (img & E & Him).
  destruct (scan_calls_ok script_calls img) as (later & Es & Hl & Hf & Hlast);
    [tauto | assumption |].
  exists img, later. unfold canvas_history, render. rewrite E; cbn [Py.bind].
  fold script_calls. rewrite Es; cbn [Py.bind].
  split; [reflexivity|]. split; [exact Hl|]. split; [constructor; assumption|].
  unfold script_calls in Hlast. rewrite for_each_app in Hlast. exact Hlast.
Qed.

End Drawing.

(** ** The viewfinder brackets *)

Section Corners.
Context `{B : Backend}.

Lemma between_spec a b v :
  between a b v = true <-> Z.min a b <= v <= Z.max a b.
Proof. unfold between. rewrite andb_true_iff, !Z.leb_le. reflexivity. Qed.

Lemma line_raster_horizontal x0 x1 y0 w x y :
  x0 <> x1 -> 1 < w ->
  line_raster (x0, y0) (x1, y0) w x y
  = between x0 x1 x
    && between (y0 - Z.sgn (x1 - x0) * ((w - 1) / 2))
               (y0 + Z.sgn (x1 - x0) * (w / 2)) y.
Proof.
  intros Hne Hw. unfold line_raster.
  destruct (Z.ltb_spec w 1); [lia|].
  destruct (Z.eqb_spec (x1 - x0) 0); [lia|].
  rewrite Z.sub_diag. cbn [andb Z.eqb]. reflexivity.
Qed.

Lemma line_raster_vertical x0 y0 y1 w x y :
  y0 <> y1 -> 1 < w ->
  line_raster (x0, y0) (x0, y1) w x y
  = between (x0 - Z.sgn (y1 - y0) * ((w - 1) / 2))
            (x0 + Z.sgn (y1 - y0) * (w / 2)) x
    && between y0 y1 y.
Proof.
  intros Hne Hw. unfold line_raster.
  destruct (Z.ltb_spec w 1); [lia|].
  rewrite Z.sub_diag. cbn [andb Z.eqb].
  destruct (Z.eqb_spec (y1 - y0) 0); [lia|]. reflexivity.
Qed.

Lemma corner_pixels_two p q p' q' w w' x y :
  corner_pixels [Line p q white w; Line p' q' white w'] x y
  = line_raster p q w x y || line_raster p' q' w' x y.
Proof. cbn. rewrite orb_false_r. reflexivity. Qed.

(** The four brackets as rectangles of pixel indices. *)
Lemma top_left_pixels x y :
  corner_pixels top_left_corner x y = true <->
  (91 <= x <= 151 /\ 84 <= y <= 98) \/ (84 <= x <= 98 /\ 91 <= y <= 151).
Proof.
  unfold top_left_corner. rewrite corner_pixels_two.
  rewrite line_raster_horizontal, line_raster_vertical
    by (unfold center, corner_offset, circle_radius, size, corner_size, corner_width; lia).
  rewrite orb_true_iff, !andb_true_iff, !between_spec.
  unfold center, corner_offset, circle_radius, size, corner_size, corner_width.
  eval_sgn. lia.
Qed.

Lemma top_right_pixels x y :
  corner_pixels top_right_corner x y = true <->
  (873 <= x <= 933 /\ 84 <= y <= 98) \/ (926 <= x <= 940 /\ 91 <= y <= 151).
Proof.
  unfold top_right_corner. rewrite corner_pixels_two.
  rewrite line_raster_horizontal, line_raster_vertical
    by (unfold center, corner_offset, circle_radius, size, corner_size, corner_width; lia).
  rewrite orb_true_iff, !andb_true_iff, !between_spec.
  unfold center, corner_offset, circle_radius, size, corner_size, corner_width.
  eval_sgn. lia.
Qed.

Lemma bottom_left_pixels x y :
  corner_pixels bottom_left_corner x y = true <->
  (91 <= x <= 151 /\ 926 <= y <= 940) \/ (84 <= x <= 98 /\ 873 <= y <= 933).
Proof.
  unfold bottom_left_corner. rewrite corner_pixels_two.
  rewrite line_raster_horizontal, line_raster_vertical
    by (unfold center, corner_offset, circle_radius, size, corner_size, corner_width; lia).
  rewrite orb_true_iff, !andb_true_iff, !between_spec.
  unfold center, corner_offset, circle_radius, size, corner_size, corner_width.
  eval_sgn. lia.
Qed.

Lemma bottom_right_pixels x y :
  corner_pixels bottom_right_corner x y = true <->
  (873 <= x <= 933 /\ 926 <= y <= 940) \/ (926 <= x <= 940 /\ 873 <= y <= 933).
Proof.
  unfold bottom_right_corner. rewrite corner_pixels_two.
  rewrite line_raster_horizontal, line_raster_vertical
    by (unfold center, corner_offset, circle_radius, size, corner_size, corner_width; lia).
  rewrite orb_true_iff, !andb_true_iff, !between_spec.
  unfold center, corner_offset, circle_radius, size, corner_size, corner_width.
  eval_sgn. lia.
Qed.

Lemma bool_ext (a b : bool) : (a = true <-> b = true) -> a = b.
Proof. destruct a, b; intuition congruence. Qed.

(** C5 (amended): the four brackets are exact reflections of one another
    across the lines through the pixel with index [center = 512]
    (column [x] goes to [1024 - x], row [y] to [1024 - y]), and they lie
    inside the canvas. *)
Theorem corners_reflect_at_center x y :
  corner_pixels top_right_corner (mirror_at_center x) y
    = corner_pixels top_left_corner x y /\
  corner_pixels bottom_left_corner x (mirror_at_center y)
    = corner_pixels top_left_corner x y /\
  corner_pixels bottom_right_corner (mirror_at_center x) (mirror_at_center y)
    = corner_pixels top_left_corner x y /\
  (corner_pixels top_left_corner x y = true ->
   0 <= x < size /\ 0 <= y < size /\
   0 <= mirror_at_center x < size /\ 0 <= mirror_at_center y < size).
Proof.
  split; [|split; [|split]].
  - apply bool_ext. rewrite top_left_pixels, top_right_pixels.
    unfold mirror_at_center; change center with 512; change size with 1024; lia.
  - apply bool_ext. rewrite top_left_pixels, bottom_left_pixels.
    unfold mirror_at_center; change center with 512; change size with 1024; lia.
  - apply bool_ext. rewrite top_left_pixels, bottom_right_pixels.
    unfold mirror_at_center; change center with 512; change size with 1024; lia.
  - rewrite top_left_pixels. unfold mirror_at_center; change center with 512; change size with 1024; lia.
Qed.

End Corners.

(** C5 as stated fails: across the centre lines of the 1024-pixel raster
    column [x] reflects to [1023 - x]; the top-left bracket paints pixel
    (151, 91), whose mirror image (872, 91) the top-right bracket leaves
    unpainted, and likewise for the rows of the bottom-left bracket. *)
Lemma corners_off_canvas_axes :
  @corner_pixels plain_backend top_left_corner 151 91 = true /\
  @corner_pixels plain_backend top_right_corner (mirror 151) 91 = false /\
  @corner_pixels plain_backend top_left_corner 91 151 = true /\
  @corner_pixels plain_backend bottom_left_corner 91 (mirror 151) = false /\
  @corner_pixels plain_backend bottom_right_corner (mirror 151) (mirror 91) = false.
Proof. repeat split; vm_compute; reflexivity. Qed.

(** ** The outer lens disc *)

Section Lens.
Context `{B : Backend}.

(** A line paints exactly the cells [painted_by] names, with its ink. *)
Lemma line_paints_exactly im p q col w im' ink x y :
  getink (im_mode im) col = Return ink ->
  apply_call im (Line p q (Some col) w) = Return im' ->
  painted_by (im_mode im) (Line p q (Some col) w) x y = line_raster p q w x y /\
  cell_at im' x y
  = (fun c => if line_raster p q w x y then ink else c) <$> cell_at im x y.
Proof.
  intros Hink. cbn [apply_call painted_by]. unfold line, _getink, getink_opt.
  rewrite Hink. cbn [Py.bind fst]. intros [= <-].
  split; [reflexivity|apply cell_at_paint].
Qed.

(** The visible bands of a doubly painted RGB image depend on the inks
    through their visible bands only. *)
Lemma getdata_paint2_RGB im cov1 cov2 i1 i1' i2 :
  im_mode im = RGB -> bands RGB i1 = bands RGB i1' ->
  getdata (paint cov2 i2 (paint cov1 i1 im))
  = getdata (paint cov2 i2 (paint cov1 i1' im)).
Proof.
  intros Hm Hb. unfold getdata, paint, map_cells; cbn [im_mode im_data im_width im_height].
  rewrite Hm. apply list_eq. intros i.
  rewrite !list_lookup_fmap, !list_lookup_imap.
  destruct (im_data im !! i) as [c|]; cbn; [|reflexivity].
  destruct (cov2 _ _); [reflexivity|].
  destruct (cov1 _ _); [|reflexivity]. f_equal. exact Hb.
Qed.

Lemma outer_circle_eq :
  outer_circle = Ellipse outer_box (Some (RGBAc 255 255 255 230)) outer_outline 1.
Proof. reflexivity. Qed.

Lemma outer_ellipse_run im r g b a :
  im_mode im = RGB ->
  cell_eqb (240, 240, 240, 255) (clip8 r, clip8 g, clip8 b, clip8 a) = false ->
  apply_call im (Ellipse outer_box (Some (RGBAc r g b a)) outer_outline 1)
  = Return (paint (ellipse_raster outer_box false 1) (240, 240, 240, 255)
              (paint (ellipse_raster outer_box true 1)
                 (clip8 r, clip8 g, clip8 b, clip8 a) im)).
Proof.
  intros Hm Hne. cbn [apply_call]. unfold ellipse. rewrite Hm.
  unfold outer_outline. cbn [_getink getink_opt getink Py.bind].
  change (clip8 240) with 240. rewrite Hne. reflexivity.
Qed.

Lemma white_not_gray a :
  cell_eqb (240, 240, 240, 255) (clip8 255, clip8 255, clip8 255, clip8 a) = false.
Proof. reflexivity. Qed.

(** C6: on the RGB canvas the alpha 230 of the outer disc's fill has no
    visible effect: every pixel the fill covers and the outline leaves
    alone reads (255, 255, 255) whatever was underneath, and the band
    values of the canvas are the same for every alpha and for the plain
    (255, 255, 255) fill. *)
Theorem lens_fill_alpha_ignored (im : Image) :
  im_mode im = RGB ->
  exists box outline im',
    outer_circle = Ellipse box (Some (RGBAc 255 255 255 230)) outline 1 /\
    apply_call im outer_circle = Return im' /\
    (forall x y under,
       cell_at im x y = Some under ->
       ellipse_raster box true 1 x y = true ->
       ellipse_raster box false 1 x y = false ->
       getpixel im' x y = Return [255; 255; 255]) /\
    (forall a, exists im_a,
       apply_call im (Ellipse box (Some (RGBAc 255 255 255 a)) outline 1)
         = Return im_a /\
       getdata im_a = getdata im') /\
    (exists im_o,
       apply_call im (Ellipse box (Some (RGBc 255 255 255)) outline 1)
         = Return im_o /\
       getdata im_o = getdata im').
Proof.
  intros Hm. exists outer_box, outer_outline. eexists.
  split; [exact outer_circle_eq|].
  split; [rewrite outer_circle_eq; apply outer_ellipse_run;
          [exact Hm | apply white_not_gray]|].
  split; [|split].
  - intros x y under Hc Hf Ho.
    unfold getpixel. rewrite !cell_at_paint, Hc, Hf, Ho.
    cbn. rewrite Hm. reflexivity.
  - intros a. eexists. split.
    + apply outer_ellipse_run; [exact Hm | apply white_not_gray].
    + apply getdata_paint2_RGB; [exact Hm | reflexivity].
  - eexists. split.
    + cbn [apply_call]. unfold ellipse. rewrite Hm. reflexivity.
    + cbn [fst snd]. apply getdata_paint2_RGB; [exact Hm | reflexivity].
Qed.

End Lens.

Lemma lens_fill_alpha_ignored_witness :
  exists box outline im',
    outer_circle = Ellipse box (Some (RGBAc 255 255 255 230)) outline 1 /\
    @apply_call plain_backend blue_canvas outer_circle = Return im' /\
    (forall x y under,
       cell_at blue_canvas x y = Some under ->
       @ellipse_raster plain_backend box true 1 x y = true ->
       @ellipse_raster plain_backend box false 1 x y = false ->
       getpixel im' x y = Return [255; 255; 255]) /\
    (forall a, exists im_a,
       @apply_call plain_backend blue_canvas
         (Ellipse box (Some (RGBAc 255 255 255 a)) outline 1) = Return im_a /\
       getdata im_a = getdata im') /\
    (exists im_o,
       @apply_call plain_backend blue_canvas
         (Ellipse box (Some (RGBc 255 255 255)) outline 1) = Return im_o /\
       getdata im_o = getdata im').
Proof.
  apply (@lens_fill_alpha_ignored plain_backend blue_canvas). reflexivity.
Defined.

(** ** Runs of the script *)

Section Process.
Context `{B : Backend}.

Lemma print_then {A} (s : string) (k : M A) w :
  (print s ;;; k)%io w = k (with_stdout [s] w).
Proof. reflexivity. Qed.

Lemma print_last (s : string) w :
  print s w = (Return tt, with_stdout [s] w).
Proof. reflexivity. Qed.

Lemma lift_then {A C} (a : A) (k : A -> M C) w :
  (x <- lift (Return a) ;; k x)%io w = k a w.
Proof. reflexivity. Qed.

Lemma save_then_failed {A} img path (k : M A) w e :
  open_error w path = Some e ->
  (save img path ;;; k)%io w = (Raise e, w).
Proof. intros H. unfold Proc.bind, save. rewrite H. reflexivity. Qed.

Lemma save_then_ok {A} img path (k : M A) w :
  open_error w path = None ->
  (save img path ;;; k)%io w
  = k (with_file path
         (png_encode (im_width img, im_height img) (getdata img)) w).
Proof. intros H. unfold Proc.bind, save. rewrite H. reflexivity. Qed.

Lemma with_stdout_app l1 l2 w :
  with_stdout l2 (with_stdout l1 w) = with_stdout (l1 ++ l2) w.
Proof. unfold with_stdout; cbn. rewrite app_assoc. reflexivity. Qed.

Lemma with_file_stdout path c l w :
  with_file path c (with_stdout l w) = with_stdout l (with_file path c w).
Proof. reflexivity. Qed.

Lemma create_app_icon_run img w :
  render = Return img ->
  create_app_icon w =
    match open_error w output_path with
    | Some e => (Raise e, with_stdout lines_before_save w)
    | None =>
        (Return tt,
         with_stdout (lines_before_save ++ lines_after_save)
           (with_file output_path
              (png_encode (im_width img, im_height img) (getdata img)) w))
    end.
Proof.
  unfold render. intros Hr.
  destruct (create_gradient size size color1 color2) as [img0|] eqn:E0;
    [|discriminate].
  cbn [Py.bind] in Hr.
  destruct (for_each lens_circles apply_call img0) as [img1|] eqn:E1;
    [|discriminate].
  cbn [Py.bind] in Hr.
  unfold create_app_icon.
  rewrite print_then, E0, lift_then, print_then, E1, lift_then, print_then,
    Hr, lift_then, print_then.
  rewrite !with_stdout_app. cbn [app]. fold lines_before_save.
  destruct (open_error w output_path) as [e|] eqn:Eo.
  - apply save_then_failed. exact Eo.
  - rewrite save_then_ok by exact Eo.
    rewrite !print_then, print_last, with_file_stdout, !with_stdout_app.
    reflexivity.
Qed.

End Process.

Section Run.
Context `{B : Backend}.

Lemma Forall_last {A} (P : A -> Prop) l a :
  Forall P (a :: l) -> P (List.last l a).
Proof.
  revert a. induction l as [|b l IH]; intros a Hf.
  - inversion Hf; assumption.
  - rewrite last_cons. apply IH. inversion Hf; assumption.
Qed.

Lemma render_ok : exists img, render = Return img /\ icon_shaped img.
Proof.
  destruct canvas_history_ok as (img & later & _ & _ & Hf & Hr).
  exists (List.last later img). split; [exact Hr|].
  apply Forall_last. exact Hf.
Qed.

(** C1 (what the code does): without Pillow the import on line 7 raises
    ModuleNotFoundError before the guarded block is entered; nothing is
    printed to standard output and the interpreter ends on the unhandled
    exception. *)
Theorem missing_pillow_is_unhandled w :
  pil_installed w = false ->
  run_script w = (Unhandled no_module_PIL,
                  with_stderr [traceback_text no_module_PIL] w).
Proof.
  intros H. unfold run_script, run_module, script, Proc.bind, import_PIL.
  rewrite H. reflexivity.
Qed.

(** The handler for ImportError does print the install message, for an
    ImportError raised inside the guarded call. *)
Lemma import_error_inside_is_reported (body : M unit) w e w' :
  body w = (Raise e, w') -> isinstance e ImportError = true ->
  run_module (main_block body) w
  = (ExitNormally,
     with_stdout [ "❌ Error: PIL (Pillow) not installed";
                   newline +:+ "To install, run:";
                   "  pip3 install Pillow";
                   newline +:+ "Or if using conda:";
                   "  conda install pillow" ] w').
Proof.
  intros Hb Hi. unfold run_module, main_block, try_except.
  rewrite Hb. cbn [find_handler]. rewrite Hi.
  rewrite !print_then, print_last, !with_stdout_app. reflexivity.
Qed.

(** C8 (amended): an exception raised inside the guarded call that is an
    instance of [Exception] and not of [ImportError] is caught: the
    message with its text is printed, the traceback is written, and the
    process ends normally. *)
Theorem other_exceptions_caught (body : M unit) w e w' :
  body w = (Raise e, w') ->
  isinstance e Exception = true ->
  isinstance e ImportError = false ->
  run_module (main_block body) w
  = (ExitNormally,
     with_stderr [traceback_text e]
       (with_stdout ["❌ Error creating icon: " +:+ exc_str e] w')).
Proof.
  intros Hb He Hi. unfold run_module, main_block, try_except.
  rewrite Hb. cbn [find_handler]. rewrite Hi, He.
  rewrite print_then. reflexivity.
Qed.

(** C10: from the canvas [create_gradient] returns through each of the ten
    drawing calls, the canvas is 1024 x 1024 in mode RGB, and the last of
    these canvases is the one saved. *)
Theorem canvas_stays_1024_RGB :
  exists img later,
    canvas_history = Return (img :: later) /\
    length later = 10%nat /\
    Forall icon_shaped (img :: later) /\
    render = Return (List.last later img) /\
    forall w, open_error w output_path = None ->
      create_app_icon w
      = (Return tt,
         with_stdout (lines_before_save ++ lines_after_save)
           (with_file output_path
              (png_encode (size, size) (getdata (List.last later img))) w)).
Proof.
  destruct canvas_history_ok as (img & later & Hh & Hl & Hf & Hr).
  exists img, later. do 4 (split; [assumption|]).
  intros w Ho. rewrite (create_app_icon_run _ w Hr), Ho.
  destruct (Forall_last _ _ _ Hf) as (_ & Hw & Hht & _).
  rewrite Hw, Hht. reflexivity.
Qed.

End Run.

Lemma missing_pillow_is_unhandled_witness :
  @run_script plain_backend (fresh_world false (fun _ => None) 0 [])
  = (Unhandled no_module_PIL,
     with_stderr [traceback_text no_module_PIL]
       (fresh_world false (fun _ => None) 0 [])).
Proof.
  apply (@missing_pillow_is_unhandled plain_backend). reflexivity.
Defined.

Lemma other_exceptions_caught_witness :
  run_module (main_block (@create_app_icon plain_backend))
    (fresh_world true (fun _ => Some no_such_directory) 0 [])
  = (ExitNormally,
     with_stderr [traceback_text no_such_directory]
       (with_stdout ["❌ Error creating icon: " +:+ exc_str no_such_directory]
          (with_stdout lines_before_save
             (fresh_world true (fun _ => Some no_such_directory) 0 [])))).
Proof.
  apply (other_exceptions_caught (@create_app_icon plain_backend)
           (fresh_world true (fun _ => Some no_such_directory) 0 [])
           no_such_directory).
  - destruct (@render_ok plain_backend) as (img & Hr & _).
    rewrite (create_app_icon_run img _ Hr). reflexivity.
  - reflexivity.
  - reflexivity.
Defined.

(** C8 as stated fails for exceptions outside the [Exception] hierarchy: a
    KeyboardInterrupt raised inside the guarded call is not an
    ImportError, matches neither [except] clause and ends the process
    unhandled. *)
Lemma keyboard_interrupt_escapes :
  isinstance interrupted ImportError = false /\
  run_module (main_block (fun w => (Raise interrupted, w)))
    (fresh_world true (fun _ => None) 0 [])
  = (Unhandled interrupted,
     with_stderr [traceback_text interrupted]
       (fresh_world true (fun _ => None) 0 [])).
Proof. split; reflexivity. Qed.

(* ===================================================================== *)
(** * Part IV  More properties of the script                              *)
(* ===================================================================== *)

(** ** More on the gradient *)

Lemma BLEND_between m s e :
  byte m -> byte s -> byte e ->
  Z.min s e <= BLEND m s e <= Z.max s e.
Proof.
  intros Hm Hs He. rewrite BLEND_round by assumption. unfold byte in *.
  set (a := s * (255 - m) + e * m).
  assert (255 * Z.min s e <= a <= 255 * Z.max s e) as Ha by (unfold a; nia).
  split.
  - apply Z.div_le_lower_bound; lia.
  - assert ((a + 127) / 255 < Z.max s e + 1)
      by (apply Z.div_lt_upper_bound; lia).
    lia.
Qed.

Lemma BLEND_step m s e :
  byte m -> byte (m + 1) -> byte s -> byte e ->
  Z.abs (BLEND (m + 1) s e - BLEND m s e) <= 1.
Proof.
  intros Hm Hm1 Hs He. rewrite !BLEND_round by assumption. unfold byte in *.
  set (a := s * (255 - m) + e * m).
  replace (s * (255 - (m + 1)) + e * (m + 1)) with (a + (e - s)) by (unfold a; lia).
  pose proof (Z.div_mod (a + 127) 255 ltac:(lia)) as D1.
  pose proof (Z.mod_pos_bound (a + 127) 255 ltac:(lia)) as B1.
  pose proof (Z.div_mod (a + (e - s) + 127) 255 ltac:(lia)) as D2.
  pose proof (Z.mod_pos_bound (a + (e - s) + 127) 255 ltac:(lia)) as B2.
  lia.
Qed.

Lemma floor_step y h :
  0 <= y -> 255 <= h ->
  255 * (y + 1) / h = 255 * y / h \/ 255 * (y + 1) / h = 255 * y / h + 1.
Proof.
  intros Hy Hh.
  assert (255 * y / h <= 255 * (y + 1) / h) by (apply Z.div_le_mono; lia).
  assert (255 * (y + 1) / h <= (255 * y + 1 * h) / h) by (apply Z.div_le_mono; lia).
  rewrite Z.div_add in H0 by lia. lia.
Qed.

(** Every channel of every pixel of the gradient lies between the start
    and the end value of the channel: the interpolation never overshoots
    (and a gradient between equal colours is uniform). *)
Theorem gradient_between_colours w h r1 g1 b1 r2 g2 b2 :
  0 < w -> 0 < h ->
  byte r1 -> byte g1 -> byte b1 -> byte r2 -> byte g2 -> byte b2 ->
  exists img,
    create_gradient w h (RGBc r1 g1 b1) (RGBc r2 g2 b2) = Return img /\
    forall x y, 0 <= x < w -> 0 <= y < h ->
      exists r g b,
        getpixel img x y = Return [r; g; b] /\
        Z.min r1 r2 <= r <= Z.max r1 r2 /\
        Z.min g1 g2 <= g <= Z.max g1 g2 /\
        Z.min b1 b2 <= b <= Z.max b1 b2.
Proof.
  intros Hw Hh R1 G1 B1 R2 G2 B2.
  destruct (gradient_pixel w h r1 g1 b1 r2 g2 b2) as (img & E & _ & _ & _ & _ & Hp);
    try assumption; try lia.
  exists img. split; [exact E|].
  intros x y Hx Hy. do 3 eexists. split; [apply Hp; assumption|].
  assert (byte (row_mask y h)) by (apply row_mask_range; lia).
  repeat split; apply BLEND_between; assumption.
Qed.

Lemma gradient_between_colours_witness :
  exists img,
    create_gradient 2 3 (RGBc 0 122 255) (RGBc 88 86 214) = Return img /\
    forall x y, 0 <= x < 2 -> 0 <= y < 3 ->
      exists r g b,
        getpixel img x y = Return [r; g; b] /\
        Z.min 0 88 <= r <= Z.max 0 88 /\
        Z.min 122 86 <= g <= Z.max 122 86 /\
        Z.min 255 214 <= b <= Z.max 255 214.
Proof.
  apply (gradient_between_colours 2 3 0 122 255 88 86 214); unfold byte; lia.
Defined.

(** With at least 255 rows (and at most 2^40) the gradient has no visible
    bands: from each row to the next no channel changes by more than 1. *)
Theorem gradient_smooth w h r1 g1 b1 r2 g2 b2 :
  0 < w -> 255 <= h -> h <= 2 ^ 40 ->
  byte r1 -> byte g1 -> byte b1 -> byte r2 -> byte g2 -> byte b2 ->
  exists img,
    create_gradient w h (RGBc r1 g1 b1) (RGBc r2 g2 b2) = Return img /\
    forall x x' y, 0 <= x < w -> 0 <= x' < w -> 0 <= y -> y + 1 < h ->
      exists p q,
        getpixel img x y = Return p /\
        getpixel img x' (y + 1) = Return q /\
        close_to 1 q p = true.
Proof.
  intros Hw Hh Hb R1 G1 B1 R2 G2 B2.
  destruct (gradient_pixel w h r1 g1 b1 r2 g2 b2) as (img & E & _ & _ & _ & _ & Hp);
    try assumption; try lia.
  exists img. split; [exact E|].
  intros x x' y Hx Hx' Hy Hy'. do 2 eexists.
  split; [apply Hp; lia|]. split; [apply Hp; lia|].
  assert (byte (row_mask y h)) as M1 by (apply row_mask_range; lia).
  assert (byte (row_mask (y + 1) h)) as M2 by (apply row_mask_range; lia).
  rewrite (row_mask_floor y h) in * by lia.
  rewrite (row_mask_floor (y + 1) h) in * by lia.
  cbn [close_to]. rewrite !andb_true_iff, !Z.leb_le.
  destruct (floor_step y h Hy Hh) as [-> | Hs].
  - rewrite !Z.sub_diag. cbn. lia.
  - rewrite Hs in *. repeat split; try apply BLEND_step; assumption.
Qed.

Lemma gradient_smooth_witness :
  exists img,
    create_gradient 2 255 (RGBc 0 122 255) (RGBc 88 86 214) = Return img /\
    forall x x' y, 0 <= x < 2 -> 0 <= x' < 2 -> 0 <= y -> y + 1 < 255 ->
      exists p q,
        getpixel img x y = Return p /\
        getpixel img x' (y + 1) = Return q /\
        close_to 1 q p = true.
Proof.
  apply (gradient_smooth 2 255 0 122 255 88 86 214); unfold byte; lia.
Defined.

Section Layers.
Context `{B : Backend}.

Lemma fmap_keep (o : option cell) : (fun c : cell => c) <$> o = o.
Proof. destruct o; reflexivity. Qed.

Lemma apply_call_shape_for_each calls : forall im im',
  for_each calls apply_call im = Return im' -> same_shape im' im.
Proof.
  induction calls as [|c calls IH]; intros im im' Hrun; cbn [for_each] in Hrun.
  - injection Hrun as <-. apply same_shape_refl.
  - destruct (apply_call im c) as [im1|] eqn:E1; [|discriminate].
    cbn [Py.bind] in Hrun.
    eapply same_shape_trans; [apply (IH _ _ Hrun)|].
    apply (apply_call_shape _ _ _ E1).
Qed.

(** ** The layers of the icon *)

Lemma white_line_run im p q w :
  im_mode im = RGB ->
  apply_call im (Line p q white w)
  = Return (paint (line_raster p q w) (255, 255, 255, 255) im).
Proof.
  intros Hm. cbn [apply_call]. unfold line. rewrite Hm. reflexivity.
Qed.

Lemma inner_ellipse_run im :
  im_mode im = RGB ->
  apply_call im inner_circle
  = Return (paint (ellipse_raster inner_box false 20) (0, 122, 255, 255) im).
Proof.
  intros Hm. unfold inner_circle. cbn [apply_call]. unfold ellipse.
  rewrite Hm. reflexivity.
Qed.

Lemma white_lines_run calls : forall im im',
  Forall is_white_line calls -> im_mode im = RGB ->
  for_each calls apply_call im = Return im' ->
  forall x y,
    cell_at im' x y
    = (fun c => if corner_pixels calls x y then (255, 255, 255, 255) else c)
        <$> cell_at im x y.
Proof.
  induction calls as [|c calls IH]; intros im im' Hall Hm Hrun x y.
  - cbn in Hrun. injection Hrun as <-. cbn. apply eq_sym, fmap_keep.
  - inversion Hall as [|? ? (p & q & w & ->) Hrest]; subst.
    cbn [for_each] in Hrun. rewrite (white_line_run im p q w Hm) in Hrun.
    cbn [Py.bind] in Hrun.
    rewrite (IH _ im' Hrest (eq_trans (proj1 (paint_shape _ _ im)) Hm) Hrun x y).
    rewrite cell_at_paint.
    unfold corner_pixels. cbn [existsb painted_by _getink getink_opt white].
    cbn [getink Py.bind].
    destruct (cell_at im x y) as [c0|]; [|reflexivity]. cbn.
    destruct (line_raster p q w x y); cbn;
      destruct (existsb _ calls); reflexivity.
Qed.

Lemma viewfinder_corners_white : Forall is_white_line viewfinder_corners.
Proof.
  unfold viewfinder_corners, top_left_corner, top_right_corner,
    bottom_left_corner, bottom_right_corner. cbn [app].
  repeat constructor; do 3 eexists; reflexivity.
Qed.

(** The saved canvas, pixel by pixel: the brackets lie on top in white,
    under them the ring of the inner circle, the outline of the outer
    circle and its white disc, and under all of them the gradient. *)
Theorem icon_layers :
  exists img,
    render = Return img /\
    forall x y, 0 <= x < size -> 0 <= y < size ->
      getpixel img x y
      = Return
          (if corner_pixels viewfinder_corners x y then [255; 255; 255]
           else if ellipse_raster inner_box false 20 x y then [0; 122; 255]
           else if ellipse_raster outer_box false 1 x y then [240; 240; 240]
           else if ellipse_raster outer_box true 1 x y then [255; 255; 255]
           else gradient_row y).
Proof.
  destruct (create_gradient_cells size size color1 color2
              (0, 122, 255, 255) (88, 86, 214, 255))
    as (img0 & E0 & Hm0 & Hw0 & Hh0 & _ & Hc0);
    try reflexivity; try (unfold size; lia).
  set (img1 := paint (ellipse_raster outer_box false 1) (240, 240, 240, 255)
                 (paint (ellipse_raster outer_box true 1)
                    (clip8 255, clip8 255, clip8 255, clip8 230) img0)).
  set (img2 := paint (ellipse_raster inner_box false 20) (0, 122, 255, 255) img1).
  assert (im_mode img1 = RGB) as Hm1 by exact Hm0.
  assert (im_mode img2 = RGB) as Hm2 by exact Hm0.
  destruct (scan_calls_ok viewfinder_corners img2) as (later & _ & _ & _ & E3).
  { intros c Hc. unfold script_calls. apply elem_of_app. right. exact Hc. }
  { repeat split; try assumption.
    unfold img2, img1, paint, map_cells; cbn [im_data].
    rewrite !length_imap.
    destruct (gradient_icon_shaped) as (img0' & E0' & _ & _ & _ & Hl').
    rewrite E0 in E0'. injection E0' as <-. exact Hl'. }
  exists (List.last later img2). split.
  - unfold render. rewrite E0. cbn [Py.bind]. unfold lens_circles.
    cbn [for_each]. rewrite outer_circle_eq.
    rewrite (outer_ellipse_run img0 255 255 255 230 Hm0 (white_not_gray 230)).
    cbn [Py.bind]. fold img1. rewrite (inner_ellipse_run img1 Hm1).
    cbn [Py.bind]. fold img2. exact E3.
  - intros x y Hx Hy.
    assert (im_mode (List.last later img2) = RGB) as Hmf.
    { destruct (apply_call_shape_for_each viewfinder_corners img2 _ E3) as (-> & _).
      exact Hm2. }
    unfold getpixel.
    rewrite (white_lines_run _ _ _ viewfinder_corners_white Hm2 E3 x y), Hmf.
    unfold img2, img1. rewrite !cell_at_paint, (Hc0 x y Hx Hy).
    cbn [fmap option_fmap option_map].
    rewrite (row_mask_floor y size) by (unfold size in *; lia).
    unfold gradient_row.
    destruct (corner_pixels viewfinder_corners x y); [reflexivity|].
    destruct (ellipse_raster inner_box false 20 x y); [reflexivity|].
    destruct (ellipse_raster outer_box false 1 x y); [reflexivity|].
    destruct (ellipse_raster outer_box true 1 x y); reflexivity.
Qed.

End Layers.

Section Apart.
Context `{B : Backend}.

(** ** Where the brackets lie *)




End Apart.

Section Reports.
Context `{B : Backend}.

(** ** What the guarded block reports *)

Lemma OSError_is_generic e :
  isinstance e OSError = true ->
  isinstance e Exception = true /\ isinstance e ImportError = false.
Proof.
  destruct e as [c s k]. destruct c; cbn; intros H; try discriminate H;
    split; reflexivity.
Qed.



(** When the output file cannot be opened, the run prints its four
    progress lines and the error line, writes the traceback, ends
    normally, and leaves the files as they were. *)
Theorem unwritable_path_is_reported w e :
  pil_installed w = true ->
  open_error w output_path = Some e ->
  isinstance e OSError = true ->
  run_script w
  = (ExitNormally,
     with_stderr [traceback_text e]
       (with_stdout
          (lines_before_save ++ ["❌ Error creating icon: " +:+ exc_str e]) w))
  /\ files (snd (run_script w)) = files w.
Proof.
  intros Hp Ho He. destruct render_ok as (img & Hr & _).
  destruct (OSError_is_generic e He) as [Hx Hi].
  assert (run_script w
          = (ExitNormally,
             with_stderr [traceback_text e]
               (with_stdout
                  (lines_before_save ++ ["❌ Error creating icon: " +:+ exc_str e])
                  w))) as Hrun.
  { unfold run_script, run_module, script, Proc.bind, import_PIL,
      main_block, try_except.
    rewrite Hp, (create_app_icon_run img w Hr), Ho.
    cbn [find_handler]. rewrite Hi, Hx.
    rewrite print_then, with_stdout_app. reflexivity. }
  split; [exact Hrun|]. rewrite Hrun. reflexivity.
Qed.


End Reports.

Lemma brackets_apart_check :
  @corner_pixels plain_backend viewfinder_corners 91 91 = true.
Proof. vm_compute. reflexivity. Qed.

Lemma import_error_inside_is_reported_witness :
  run_module (main_block (fun w => (Raise no_module_PIL, w)))
    (fresh_world true (fun _ => None) 0 [])
  = (ExitNormally,
     with_stdout [ "❌ Error: PIL (Pillow) not installed";
                   newline +:+ "To install, run:";
                   "  pip3 install Pillow";
                   newline +:+ "Or if using conda:";
                   "  conda install pillow" ]
       (fresh_world true (fun _ => None) 0 [])).
Proof.
  apply (import_error_inside_is_reported
           (fun w => (Raise no_module_PIL, w))
           (fresh_world true (fun _ => None) 0 []) no_module_PIL);
    reflexivity.
Defined.


Lemma unwritable_path_is_reported_witness :
  @run_script plain_backend
    (fresh_world true (fun _ => Some no_such_directory) 0 [])
  = (ExitNormally,
     with_stderr [traceback_text no_such_directory]
       (with_stdout
          (lines_before_save
           ++ ["❌ Error creating icon: " +:+ exc_str no_such_directory])
          (fresh_world true (fun _ => Some no_such_directory) 0 [])))
  /\ files (snd (@run_script plain_backend
                   (fresh_world true (fun _ => Some no_such_directory) 0 [])))
     = files (fresh_world true (fun _ => Some no_such_directory) 0 []).
Proof.
  apply (@unwritable_path_is_reported plain_backend); reflexivity.
Defined.

